(** * dash-emulator: a shallow embedding of [emulator.py] and [managers.py]

    The two Python files are embedded as pure state-passing functions.
    Python numbers used as times are rationals ([Q]); byte and bit counters
    are unbounded integers ([Z]); dictionaries are [gmap]s.  A coroutine is
    a function from the world to a new world together with the way it ended:
    it returned, it raised, or the given number of steps ran out while it
    was still running. *)

From Stdlib Require Import ZArith QArith List String Bool Lia Lqa.
From stdpp Require Import base option list gmap strings.

Import ListNotations.
#[local] Open Scope Z_scope.

(** ** Python values, exceptions and the operators the code applies to them *)
Module Py.

Inductive exn : Type :=
| TypeError
| AttributeError
| IndexError
| KeyError
| ZeroDivisionError
| CancelledError
| ClientError.

(** The Python objects that reach the arithmetic of the two files. *)
Inductive value : Type :=
| VNone
| VInt (z : Z)
| VFloat (q : Q)
| VStr (s : string).

(** How a call ended. [Unfinished] is a coroutine that was still running
    when the steps allotted to the model ran out. *)
Inductive run (A : Type) : Type :=
| Done (a : A)
| Raised (e : exn)
| Unfinished.

Arguments Done {A} a.
Arguments Raised {A} e.
Arguments Unfinished {A}.

Definition bytes : Type := list Byte.byte.

(** [len(chunk)] *)
Definition len {A : Type} (l : list A) : Z := Z.of_nat (List.length l).

(** The place in [l] that [l[i]] names, with Python's negative indices;
    [None] stands for IndexError. *)
Definition place {A : Type} (l : list A) (i : Z) : option nat :=
  if (0 <=? i) && (i <? len l) then Some (Z.to_nat i)
  else if (- len l <=? i) && (i <? 0) then Some (Z.to_nat (len l + i))
  else None.

(** [l[i]] *)
Definition getitem {A : Type} (l : list A) (i : Z) : option A :=
  match place l i with
  | Some k => nth_error l k
  | None => None
  end.

(** [s * n] on a string: [n] copies of [s], none when [n <= 0]. *)
Fixpoint str_repeat (s : string) (n : nat) : string :=
  match n with
  | O => EmptyString
  | S k => String.append s (str_repeat s k)
  end.

(** [a * b] *)
Definition mul (a b : value) : run value :=
  match a, b with
  | VInt x, VInt y => Done (VInt (x * y))
  | VInt x, VFloat y => Done (VFloat (inject_Z x * y))
  | VFloat x, VInt y => Done (VFloat (x * inject_Z y))
  | VFloat x, VFloat y => Done (VFloat (x * y))
  | VStr s, VInt n => Done (VStr (str_repeat s (Z.to_nat n)))
  | VInt n, VStr s => Done (VStr (str_repeat s (Z.to_nat n)))
  | _, _ => Raised TypeError
  end.

Definition Qzero (q : Q) : bool := Qeq_bool q 0.

(** [a / b], true division *)
Definition truediv (a b : value) : run value :=
  match a, b with
  | VInt x, VInt y =>
      if y =? 0 then Raised ZeroDivisionError
      else Done (VFloat (inject_Z x / inject_Z y))
  | VInt x, VFloat y =>
      if Qzero y then Raised ZeroDivisionError else Done (VFloat (inject_Z x / y))
  | VFloat x, VInt y =>
      if y =? 0 then Raised ZeroDivisionError else Done (VFloat (x / inject_Z y))
  | VFloat x, VFloat y =>
      if Qzero y then Raised ZeroDivisionError else Done (VFloat (x / y))
  | _, _ => Raised TypeError
  end.

(** [a < b] between an integer and a Python object *)
Definition int_lt (a : Z) (b : value) : run bool :=
  match b with
  | VInt y => Done (a <? y)
  | VFloat y => Done (negb (Qle_bool y (inject_Z a)))
  | _ => Raised TypeError
  end.

(** [a > b] on rationals, as a boolean *)
Definition Qgtb (a b : Q) : bool := negb (Qle_bool a b).

(** An [asyncio.Task] as far as its holder can tell. *)
Inductive task_state : Type :=
| TaskPending
| TaskCancelled
| TaskFinished.

(** [Task.cancel()]: a task that is done refuses and returns [False]; a
    pending one is cancelled and the call returns [True]. *)
Definition cancel (t : task_state) : task_state * bool :=
  match t with
  | TaskPending => (TaskCancelled, true)
  | TaskCancelled => (TaskCancelled, false)
  | TaskFinished => (TaskFinished, false)
  end.

(** What [session.get(url)] hands back: the headers' ["Content-Length"]
    entry, a string when the server sent one, and what the successive
    [resp.content.read(n)] calls return.  When the list is used up the
    next read returns [b''], the end of the body. *)
Record Response : Type := mkResponse {
  content_length : option string;
  reads : list (run bytes)
}.

End Py.

Import Py.

(** ** What an observer of a session sees *)
Module Trace.

(** [events.Events], the kinds both managers publish and subscribe to. *)
Inductive Events : Type :=
| MPDParseComplete
| CanPlay
| Play
| Stall
| DownloadStart
| DownloadComplete
| InitializationDownloadComplete
| DownloadEnd
| End.

#[export] Instance Events_eq_dec : EqDecision Events.
Proof. solve_decision. Defined.

(** The periodic coroutines [play] turns into tasks. *)
Inductive Ticker : Type :=
| UpdateCurrentTime
| CheckBufferSufficient.

(** One entry per effect that leaves the coroutine: a task created for a
    download and the end of the [await] on it, a sleep, a call into a
    collaborator, an event handed to the bridge. *)
Inductive Ev : Type :=
| EvSleep (seconds : Q)
| EvChoose (representation : Z)
| EvCreateTask (url : string)
| EvAwaited (url : string) (how : run unit)
| EvInited (representation : nat)
| EvSetStartTime
| EvFeedSegment (duration : Q)
| EvTrigger (event : Events)
| EvSpawn (which : Ticker)
| EvCancel (which : Ticker)
| EvSetLowest
| EvCancelDownload (accepted : bool)
| EvSpawnSpeedFeed
| EvCancelSpeedFeed
| EvPlot.

(** Downloads in flight after a trace: every task created for a download
    counts until the [await] on it has ended, by completion, failure or
    cancellation. *)
Definition in_flight_delta (e : Ev) : Z :=
  match e with
  | EvCreateTask _ => 1
  | EvAwaited _ _ => -1
  | _ => 0
  end.

Fixpoint in_flight (tr : list Ev) : Z :=
  match tr with
  | [] => 0
  | e :: rest => in_flight_delta e + in_flight rest
  end.

(** At every instant of the trace at most one download is in flight. *)
Definition one_at_a_time (tr : list Ev) : Prop :=
  forall n : nat, 0 <= in_flight (firstn n tr) <= 1.

(** One rendition of the media, as the manifest collaborator exposes it. *)
Record Representation : Type := mkRepresentation {
  id : string;
  bandwidth : Z;
  urls : list string;
  durations : list Q;
  startNumber : Z;
  initialization : string;
  is_inited : bool
}.

Definition set_inited (r : Representation) : Representation :=
  {| id := id r; bandwidth := bandwidth r; urls := urls r;
     durations := durations r; startNumber := startNumber r;
     initialization := initialization r; is_inited := true |}.

End Trace.

Import Trace.

(** ** Coroutines as state-passing computations that may raise *)
Module Co.

Definition M (S A : Type) : Type := S -> S * run A.

Definition ret {S A : Type} (a : A) : M S A := fun s => (s, Done a).

Definition bind {S A B : Type} (m : M S A) (k : A -> M S B) : M S B :=
  fun s =>
    match m s with
    | (s', Done a) => k a s'
    | (s', Raised e) => (s', Raised e)
    | (s', Unfinished) => (s', Unfinished)
    end.

Definition raise {S A : Type} (e : exn) : M S A := fun s => (s, Raised e).

Definition lift {S A : Type} (r : run A) : M S A := fun s => (s, r).

Definition gets {S A : Type} (f : S -> A) : M S A := fun s => (s, Done (f s)).

Definition modify {S : Type} (f : S -> S) : M S unit := fun s => (f s, Done tt).

(** [o] or, when there is none, the exception [e]. *)
Definition some_or {S A : Type} (e : exn) (o : option A) : M S A :=
  match o with
  | Some a => ret a
  | None => raise e
  end.

Definition when {S : Type} (b : bool) (m : M S unit) : M S unit :=
  if b then m else ret tt.

End Co.

Import Co.

Declare Scope co_scope.
Delimit Scope co_scope with co.
Notation "x <- m ;; k" := (bind m (fun x => k))
  (at level 100, m at level 99, right associativity) : co_scope.
Notation "m ;; k" := (bind m (fun _ => k))
  (at level 100, right associativity) : co_scope.
#[local] Open Scope co_scope.

(** ** [dash_emulator/emulator.py]: the polling-loop emulator *)
Module Emulator.

(** The options of [config.Config] the emulator reads. *)
Record Config : Type := mkConfig {
  max_buffer : Q;
  timeout_max_ratio : Q;
  min_frame_chunk_ratio : Q;
  vq_threshold_size_ratio : Q
}.

(** The collaborators, as the answers they give: the speed monitor's
    estimate, the representation the ABR controller returns at its k-th call
    (by its place in the manifest), the buffer
    level the buffer monitor reports at the k-th turn of the loop, and the
    response to the k-th request. *)
Record Env : Type := mkEnv {
  get_speed : value;
  choose : nat -> nat;
  buffer_level : nat -> Q;
  get : nat -> string -> Response
}.

(** [self], the manifest's representation objects it shares with the ABR
    controller, the trace so far and how often each collaborator was asked. *)
Record Emulator : Type := mkEmulator {
  data_downloaded : Z;
  data_downloaded_before_this_segment : Z;
  set_to_lowest_quaity : bool;
  task : option task_state;
  segment_content_length : value;
  representations : list Representation;
  trace : list Ev;
  chosen : nat;
  requested : nat;
  turns : nat
}.

(** [Emulator.__init__] on a manifest that is loaded later by [start]. *)
Definition init (reps : list Representation) : Emulator :=
  {| data_downloaded := 0;
     data_downloaded_before_this_segment := 0;
     set_to_lowest_quaity := false;
     task := None;
     segment_content_length := VInt 0;
     representations := reps;
     trace := [];
     chosen := O; requested := O; turns := O |}.

Definition set_data_downloaded (v : Z) (e : Emulator) : Emulator :=
  {| data_downloaded := v;
     data_downloaded_before_this_segment := data_downloaded_before_this_segment e;
     set_to_lowest_quaity := set_to_lowest_quaity e;
     task := task e;
     segment_content_length := segment_content_length e;
     representations := representations e;
     trace := trace e;
     chosen := chosen e; requested := requested e; turns := turns e |}.

Definition set_before_this_segment (v : Z) (e : Emulator) : Emulator :=
  {| data_downloaded := data_downloaded e;
     data_downloaded_before_this_segment := v;
     set_to_lowest_quaity := set_to_lowest_quaity e;
     task := task e;
     segment_content_length := segment_content_length e;
     representations := representations e;
     trace := trace e;
     chosen := chosen e; requested := requested e; turns := turns e |}.

Definition set_lowest (v : bool) (e : Emulator) : Emulator :=
  {| data_downloaded := data_downloaded e;
     data_downloaded_before_this_segment := data_downloaded_before_this_segment e;
     set_to_lowest_quaity := v;
     task := task e;
     segment_content_length := segment_content_length e;
     representations := representations e;
     trace := trace e;
     chosen := chosen e; requested := requested e; turns := turns e |}.

Definition set_task (v : option task_state) (e : Emulator) : Emulator :=
  {| data_downloaded := data_downloaded e;
     data_downloaded_before_this_segment := data_downloaded_before_this_segment e;
     set_to_lowest_quaity := set_to_lowest_quaity e;
     task := v;
     segment_content_length := segment_content_length e;
     representations := representations e;
     trace := trace e;
     chosen := chosen e; requested := requested e; turns := turns e |}.

Definition set_segment_content_length (v : value) (e : Emulator) : Emulator :=
  {| data_downloaded := data_downloaded e;
     data_downloaded_before_this_segment := data_downloaded_before_this_segment e;
     set_to_lowest_quaity := set_to_lowest_quaity e;
     task := task e;
     segment_content_length := v;
     representations := representations e;
     trace := trace e;
     chosen := chosen e; requested := requested e; turns := turns e |}.

Definition set_representations (v : list Representation) (e : Emulator) : Emulator :=
  {| data_downloaded := data_downloaded e;
     data_downloaded_before_this_segment := data_downloaded_before_this_segment e;
     set_to_lowest_quaity := set_to_lowest_quaity e;
     task := task e;
     segment_content_length := segment_content_length e;
     representations := v;
     trace := trace e;
     chosen := chosen e; requested := requested e; turns := turns e |}.

Definition set_trace (v : list Ev) (e : Emulator) : Emulator :=
  {| data_downloaded := data_downloaded e;
     data_downloaded_before_this_segment := data_downloaded_before_this_segment e;
     set_to_lowest_quaity := set_to_lowest_quaity e;
     task := task e;
     segment_content_length := segment_content_length e;
     representations := representations e;
     trace := v;
     chosen := chosen e; requested := requested e; turns := turns e |}.

Definition set_counts (c r t : nat) (e : Emulator) : Emulator :=
  {| data_downloaded := data_downloaded e;
     data_downloaded_before_this_segment := data_downloaded_before_this_segment e;
     set_to_lowest_quaity := set_to_lowest_quaity e;
     task := task e;
     segment_content_length := segment_content_length e;
     representations := representations e;
     trace := trace e;
     chosen := c; requested := r; turns := t |}.

(** Append to the trace. *)
Definition emit (ev : Ev) : M Emulator unit :=
  modify (fun e => set_trace (trace e ++ [ev]) e).

(** The loop of [download_segment] (lines 23-27): every chunk read adds its
    length to the counter; an empty chunk, the end of the body, leaves the
    loop; a read that raises leaves what was counted so far. *)
Fixpoint read_chunks (rs : list (run bytes)) (counter : Z) : Z * run unit :=
  match rs with
  | [] => (counter, Done tt)
  | Done chunk :: rest =>
      if len chunk =? 0 then (counter, Done tt)
      else read_chunks rest (counter + len chunk)
  | Raised x :: _ => (counter, Raised x)
  | Unfinished :: _ => (counter, Unfinished)
  end.

(** [download_segment] (lines 14-27) on the response the session gives. *)
Definition download_segment (resp : Response) : M Emulator unit :=
  h <- some_or KeyError (content_length resp) ;;
  modify (set_segment_content_length (VStr h)) ;;
  modify (fun e => set_before_this_segment (data_downloaded e) e) ;;
  fun e =>
    let (counter, how) := read_chunks (reads resp) (data_downloaded e) in
    (set_data_downloaded counter e, how).

(** Lines 46-48 of [download_progress_monitor]:
    [timeout = length * 8 / bandwidth]. *)
Definition timeout (bandwidth : value) (e : Emulator) : run value :=
  match mul (segment_content_length e) (VInt 8) with
  | Done bits => truediv bits bandwidth
  | Raised x => Raised x
  | Unfinished => Unfinished
  end.

(** A number as a rational; anything else cannot be slept on or compared. *)
Definition seconds (v : value) : run Q :=
  match v with
  | VInt z => Done (inject_Z z)
  | VFloat q => Done q
  | _ => Raised TypeError
  end.

(** One turn of the monitor's loop (lines 54-70) when [time.time() -
    start_time] reads [elapsed]. *)
Definition poll (cfg : Config) (deadline elapsed : Q) : M Emulator unit :=
  (if Qgtb elapsed (deadline * timeout_max_ratio cfg) then
     modify (set_lowest true) ;;
     emit EvSetLowest ;;
     t <- gets task ;;
     t <- some_or AttributeError t ;;
     modify (set_task (Some (fst (cancel t)))) ;;
     emit (EvCancelDownload (snd (cancel t)))
   else ret tt) ;;
  downloaded <- gets (fun e => data_downloaded e - data_downloaded_before_this_segment e) ;;
  length <- gets segment_content_length ;;
  f_min <- lift (mul (VFloat (min_frame_chunk_ratio cfg)) length) ;;
  below_min <- lift (int_lt downloaded f_min) ;;
  (if below_min : bool then ret tt
   else
     f_vq <- lift (mul (VFloat (vq_threshold_size_ratio cfg)) length) ;;
     below_vq <- lift (int_lt downloaded f_vq) ;;
     ret tt) ;;
  emit (EvSleep (5 # 100)).

(** The loop never leaves by itself: it runs for as long as the clock is
    read, one reading per turn. *)
Fixpoint poll_loop (cfg : Config) (deadline : Q) (clock : list Q) : M Emulator unit :=
  match clock with
  | [] => lift Unfinished
  | elapsed :: later => poll cfg deadline elapsed ;; poll_loop cfg deadline later
  end.

(** [download_progress_monitor] (lines 41-70); [clock] lists what
    [time.time() - start_time] reads at the successive turns. *)
Definition download_progress_monitor (cfg : Config) (env : Env) (clock : list Q)
  : M Emulator unit :=
  t <- (fun e => (e, timeout (get_speed env) e)) ;;
  deadline <- lift (seconds t) ;;
  emit (EvSleep deadline) ;;
  poll_loop cfg deadline clock.

(** [abr_controller.choose("video")]: the object the controller returns is
    one of the manifest's; a place outside the manifest stands for a call
    that raises. *)
Definition abr_choose (env : Env) : M Emulator (nat * Representation) :=
  k <- gets chosen ;;
  modify (fun e => set_counts (S k) (requested e) (turns e) e) ;;
  emit (EvChoose (Z.of_nat (choose env k))) ;;
  reps <- gets representations ;;
  rep <- some_or IndexError (reps !! choose env k) ;;
  ret (choose env k, rep).

(** [representation.is_inited = True] on the shared object. *)
Definition mark_inited (r : nat) : M Emulator unit :=
  modify (fun e => set_representations (alter set_inited r (representations e)) e) ;;
  emit (EvInited r).

(** [self.task = asyncio.create_task(self.download_segment(url))],
    [await self.task], [self.task = None] (lines 114-116 and 121-124).  The
    await ends when the task does and raises what the task raised; the
    assignment of [None] is reached only when it returned. *)
Definition download (env : Env) (url : string) : M Emulator unit :=
  emit (EvCreateTask url) ;;
  modify (set_task (Some TaskPending)) ;;
  k <- gets requested ;;
  modify (fun e => set_counts (chosen e) (S k) (turns e) e) ;;
  fun e =>
    match download_segment (get env k url) e with
    | (e', Done _) =>
        (set_task None (set_trace (trace e' ++ [EvAwaited url (Done tt)]) e'), Done tt)
    | (e', Raised CancelledError) =>
        (set_task (Some TaskCancelled)
           (set_trace (trace e' ++ [EvAwaited url (Raised CancelledError)]) e'),
         Raised CancelledError)
    | (e', Raised x) =>
        (set_task (Some TaskFinished)
           (set_trace (trace e' ++ [EvAwaited url (Raised x)]) e'),
         Raised x)
    | (e', Unfinished) => (e', Unfinished)
    end.

(** The [while] loop of [start] (lines 106-131), [fuel] turns of it. *)
Fixpoint start_loop (fuel : nat) (cfg : Config) (env : Env) (ind : Z)
    (representation : Representation) : M Emulator unit :=
  match fuel with
  | O => lift Unfinished
  | S fuel' =>
      if ind <? len (urls representation) then
        k <- gets turns ;;
        modify (fun e => set_counts (chosen e) (requested e) (S k) e) ;;
        when (Qgtb (buffer_level env k) (max_buffer cfg))
             (emit (EvSleep (max_buffer cfg - buffer_level env k))) ;;
        chosen_rep <- abr_choose env ;;
        let representation := snd chosen_rep in
        when (negb (is_inited representation))
             (download env (initialization representation) ;;
              mark_inited (fst chosen_rep)) ;;
        url <- some_or IndexError (getitem (urls representation) ind) ;;
        download env url ;;
        when (ind =? startNumber representation) (emit EvSetStartTime) ;;
        d <- some_or IndexError (getitem (durations representation) ind) ;;
        emit (EvFeedSegment d) ;;
        start_loop fuel' cfg env (ind + 1) representation
      else ret tt
  end.

(** [start] (lines 93-133) once the manifest is loaded. *)
Definition start (fuel : nat) (cfg : Config) (env : Env) : M Emulator unit :=
  emit EvSpawnSpeedFeed ;;
  chosen_rep <- abr_choose env ;;
  start_loop fuel cfg env (startNumber (snd chosen_rep)) (snd chosen_rep) ;;
  emit EvCancelSpeedFeed.

(** [feed_speed_monitor] (lines 29-39), as many turns of its loop as there
    are readings: a turn reads [self.data_downloaded], sleeps one second,
    reads it again and feeds the difference with a duration of 1 to the
    speed monitor.  The emulator is given as it is at the two reads of each
    turn; the result lists what was fed. *)
Definition feed_speed_monitor (turns_seen : list (Emulator * Emulator)) : list (Z * Q) :=
  map (fun seen =>
         let data_previous := data_downloaded (fst seen) in
         let diff := data_downloaded (snd seen) - data_previous in
         (diff, 1%Q))
      turns_seen.

End Emulator.

(** ** [src/main/python/dash_emulator/managers.py]: the event-driven managers *)
Module Managers.

(** [PlayManager.State] *)
Inductive State : Type :=
| READY
| PLAYING
| STALLING
| STOPPED.

#[export] Instance State_eq_dec : EqDecision State.
Proof. solve_decision. Defined.

(** The options of [config.Config] the managers read. *)
Record Config : Type := mkConfig {
  update_interval : Q;
  chunk_size : Z;
  output : option string;
  plot_arg : bool
}.

(** The manifest's scalars; its representation objects are mutable and
    live in the world. *)
Record MPD : Type := mkMPD {
  minBufferTime : Q;
  mediaPresentationDuration : Q
}.

(** A task made from one of the two periodic coroutines: whether it is
    still alive and when the sleep it is suspended in is over. *)
Record Sleeper : Type := mkSleeper {
  status : task_state;
  wake : Q
}.

(** The coroutines registered with the event bridge, by the name the
    source gives each. *)
Inductive Handler : Type :=
| can_play
| play
| stall
| download_start
| download_next
| check_canplay
| plot
| start_download.

(** The attributes [PlayManager.__init__] creates. *)
Record PlayManager : Type := mkPlayManager {
  cfg : option Config;
  mpd : option MPD;
  current_time : Q;
  start_time : Q;
  check_buffer_sufficient_task : option Sleeper;
  update_current_time_task : option Sleeper;
  abr_controller : bool;
  state : State;
  current_video_representation_ind : Z;
  current_audio_representation_ind : Z;
  bandwidth_segmentwise : gmap (option Z) value
}.

(** The attributes [DownloadManager.__init__] creates; [representation] is
    the place in the manifest of the object it refers to. *)
Record DownloadManager : Type := mkDownloadManager {
  dm_cfg : option Config;
  dm_mpd : option MPD;
  video_ind : option Z;
  audio_ind : option Z;
  dm_abr_controller : bool;
  segment_length : value;
  representation : option nat
}.

(** Lines 32-47: what [PlayManager.__init__] assigns. *)
Definition PlayManager_fresh : PlayManager :=
  {| cfg := None; mpd := None; current_time := 0; start_time := 0;
     check_buffer_sufficient_task := None; update_current_time_task := None;
     abr_controller := false; state := READY;
     current_video_representation_ind := -1;
     current_audio_representation_ind := -1;
     bandwidth_segmentwise := ∅ |}.

(** Lines 223-232: what [DownloadManager.__init__] assigns. *)
Definition DownloadManager_fresh : DownloadManager :=
  {| dm_cfg := None; dm_mpd := None; video_ind := None; audio_ind := None;
     dm_abr_controller := false; segment_length := VNone;
     representation := None |}.

(** *** The two singletons: [__new__] and [__init__] *)

(** An object of one of the two classes: the [inited] attribute [__new__]
    gives it and, once [__init__] has run, the attributes it created. *)
Inductive Object : Type :=
| PlayManagerObject (inited : bool) (attrs : option PlayManager)
| DownloadManagerObject (inited : bool) (attrs : option DownloadManager).

(** The process: the objects by identity, the next free identity, and the
    class attribute [_instance] of each class. *)
Record Process : Type := mkProcess {
  heap : gmap nat Object;
  next : nat;
  PlayManager_instance : option nat;
  DownloadManager_instance : option nat
}.

(** [isinstance(cls._instance, PlayManager)] *)
Definition is_PlayManager (p : Process) : option nat :=
  match PlayManager_instance p with
  | Some a =>
      match heap p !! a with
      | Some (PlayManagerObject _ _) => Some a
      | _ => None
      end
  | None => None
  end.

(** [isinstance(cls._instance, DownloadManager)] *)
Definition is_DownloadManager (p : Process) : option nat :=
  match DownloadManager_instance p with
  | Some a =>
      match heap p !! a with
      | Some (DownloadManagerObject _ _) => Some a
      | _ => None
      end
  | None => None
  end.

(** [PlayManager.__new__] (lines 22-26) *)
Definition PlayManager__new__ (p : Process) : nat * Process :=
  match is_PlayManager p with
  | Some a => (a, p)
  | None =>
      (next p,
       {| heap := <[next p := PlayManagerObject false None]> (heap p);
          next := S (next p);
          PlayManager_instance := Some (next p);
          DownloadManager_instance := DownloadManager_instance p |})
  end.

(** [PlayManager.__init__] (lines 28-47) on the object [self] *)
Definition PlayManager__init__ (self : nat) (p : Process) : Process :=
  match heap p !! self with
  | Some (PlayManagerObject false _) =>
      {| heap := <[self := PlayManagerObject true (Some PlayManager_fresh)]> (heap p);
         next := next p;
         PlayManager_instance := PlayManager_instance p;
         DownloadManager_instance := DownloadManager_instance p |}
  | _ => p
  end.

(** The call [PlayManager()]: [__new__], then [__init__] on its result. *)
Definition PlayManager_call (p : Process) : nat * Process :=
  let (self, p') := PlayManager__new__ p in (self, PlayManager__init__ self p').

(** [DownloadManager.__new__] (lines 213-217) *)
Definition DownloadManager__new__ (p : Process) : nat * Process :=
  match is_DownloadManager p with
  | Some a => (a, p)
  | None =>
      (next p,
       {| heap := <[next p := DownloadManagerObject false None]> (heap p);
          next := S (next p);
          PlayManager_instance := PlayManager_instance p;
          DownloadManager_instance := Some (next p) |})
  end.

(** [DownloadManager.__init__] (lines 219-232) on the object [self] *)
Definition DownloadManager__init__ (self : nat) (p : Process) : Process :=
  match heap p !! self with
  | Some (DownloadManagerObject false _) =>
      {| heap := <[self := DownloadManagerObject true (Some DownloadManager_fresh)]> (heap p);
         next := next p;
         PlayManager_instance := PlayManager_instance p;
         DownloadManager_instance := DownloadManager_instance p |}
  | _ => p
  end.

(** The call [DownloadManager()] *)
Definition DownloadManager_call (p : Process) : nat * Process :=
  let (self, p') := DownloadManager__new__ p in (self, DownloadManager__init__ self p').

(** A constructor call by class. *)
Inductive Class : Type :=
| PlayManagerClass
| DownloadManagerClass.

Definition call (c : Class) (p : Process) : nat * Process :=
  match c with
  | PlayManagerClass => PlayManager_call p
  | DownloadManagerClass => DownloadManager_call p
  end.

(** A sequence of constructor calls: what each returned and the process
    they leave. *)
Fixpoint calls (cs : list Class) (p : Process) : list nat * Process :=
  match cs with
  | [] => ([], p)
  | c :: rest =>
      let (a, p') := call c p in
      let (more, p'') := calls rest p' in
      (a :: more, p'')
  end.

(** A process that starts with no object at all. *)
Definition boot : Process :=
  {| heap := ∅; next := O; PlayManager_instance := None;
     DownloadManager_instance := None |}.

(** *** The session the two singletons share *)

#[export] Instance Events_countable : Countable Events.
Proof.
  refine (inj_countable'
    (fun e => match e with
              | MPDParseComplete => 0%nat | CanPlay => 1%nat | Play => 2%nat
              | Stall => 3%nat | DownloadStart => 4%nat | DownloadComplete => 5%nat
              | InitializationDownloadComplete => 6%nat | DownloadEnd => 7%nat
              | End => 8%nat
              end)
    (fun n => match n with
              | 0%nat => MPDParseComplete | 1%nat => CanPlay | 2%nat => Play
              | 3%nat => Stall | 4%nat => DownloadStart | 5%nat => DownloadComplete
              | 6%nat => InitializationDownloadComplete | 7%nat => DownloadEnd
              | _ => End
              end) _).
  intros []; reflexivity.
Defined.

(** The collaborators, as the answers they give: the place the ABR
    controller chooses at its k-th call, the speed monitor's estimate at its
    k-th reading, and the response to the k-th request. *)
Record Env : Type := mkEnv {
  choose : nat -> Z;
  get_speed : nat -> value;
  get : nat -> string -> Response
}.

(** The two managers, the two monitors' counters they read and write, the
    manifest's representation objects, the event bridge's table, the wall
    clock, the trace, and how often each collaborator was asked. *)
Record World : Type := mkWorld {
  pm : PlayManager;
  dm : DownloadManager;
  buffer : Q;
  downloaded : Z;
  representations : list Representation;
  callbacks : gmap Events (list Handler);
  now : Q;
  trace : list Ev;
  chosen : nat;
  requested : nat;
  measured : nat
}.

Definition with_pm (f : PlayManager -> PlayManager) (w : World) : World :=
  {| pm := f (pm w); dm := dm w; buffer := buffer w; downloaded := downloaded w;
     representations := representations w; callbacks := callbacks w;
     now := now w; trace := trace w;
     chosen := chosen w; requested := requested w; measured := measured w |}.

Definition with_dm (f : DownloadManager -> DownloadManager) (w : World) : World :=
  {| pm := pm w; dm := f (dm w); buffer := buffer w; downloaded := downloaded w;
     representations := representations w; callbacks := callbacks w;
     now := now w; trace := trace w;
     chosen := chosen w; requested := requested w; measured := measured w |}.

Definition set_buffer (v : Q) (w : World) : World :=
  {| pm := pm w; dm := dm w; buffer := v; downloaded := downloaded w;
     representations := representations w; callbacks := callbacks w;
     now := now w; trace := trace w;
     chosen := chosen w; requested := requested w; measured := measured w |}.

Definition set_downloaded (v : Z) (w : World) : World :=
  {| pm := pm w; dm := dm w; buffer := buffer w; downloaded := v;
     representations := representations w; callbacks := callbacks w;
     now := now w; trace := trace w;
     chosen := chosen w; requested := requested w; measured := measured w |}.

Definition set_representations (v : list Representation) (w : World) : World :=
  {| pm := pm w; dm := dm w; buffer := buffer w; downloaded := downloaded w;
     representations := v; callbacks := callbacks w;
     now := now w; trace := trace w;
     chosen := chosen w; requested := requested w; measured := measured w |}.

Definition set_callbacks (v : gmap Events (list Handler)) (w : World) : World :=
  {| pm := pm w; dm := dm w; buffer := buffer w; downloaded := downloaded w;
     representations := representations w; callbacks := v;
     now := now w; trace := trace w;
     chosen := chosen w; requested := requested w; measured := measured w |}.

Definition set_now (v : Q) (w : World) : World :=
  {| pm := pm w; dm := dm w; buffer := buffer w; downloaded := downloaded w;
     representations := representations w; callbacks := callbacks w;
     now := v; trace := trace w;
     chosen := chosen w; requested := requested w; measured := measured w |}.

Definition set_trace (v : list Ev) (w : World) : World :=
  {| pm := pm w; dm := dm w; buffer := buffer w; downloaded := downloaded w;
     representations := representations w; callbacks := callbacks w;
     now := now w; trace := v;
     chosen := chosen w; requested := requested w; measured := measured w |}.

Definition set_counts (c r m : nat) (w : World) : World :=
  {| pm := pm w; dm := dm w; buffer := buffer w; downloaded := downloaded w;
     representations := representations w; callbacks := callbacks w;
     now := now w; trace := trace w;
     chosen := c; requested := r; measured := m |}.

Definition set_cfg_mpd (c : option Config) (m : option MPD) (abr : bool)
    (p : PlayManager) : PlayManager :=
  {| cfg := c; mpd := m; current_time := current_time p; start_time := start_time p;
     check_buffer_sufficient_task := check_buffer_sufficient_task p;
     update_current_time_task := update_current_time_task p;
     abr_controller := abr; state := state p;
     current_video_representation_ind := current_video_representation_ind p;
     current_audio_representation_ind := current_audio_representation_ind p;
     bandwidth_segmentwise := bandwidth_segmentwise p |}.

Definition set_current_time (v : Q) (p : PlayManager) : PlayManager :=
  {| cfg := cfg p; mpd := mpd p; current_time := v; start_time := start_time p;
     check_buffer_sufficient_task := check_buffer_sufficient_task p;
     update_current_time_task := update_current_time_task p;
     abr_controller := abr_controller p; state := state p;
     current_video_representation_ind := current_video_representation_ind p;
     current_audio_representation_ind := current_audio_representation_ind p;
     bandwidth_segmentwise := bandwidth_segmentwise p |}.

Definition set_start_time (v : Q) (p : PlayManager) : PlayManager :=
  {| cfg := cfg p; mpd := mpd p; current_time := current_time p; start_time := v;
     check_buffer_sufficient_task := check_buffer_sufficient_task p;
     update_current_time_task := update_current_time_task p;
     abr_controller := abr_controller p; state := state p;
     current_video_representation_ind := current_video_representation_ind p;
     current_audio_representation_ind := current_audio_representation_ind p;
     bandwidth_segmentwise := bandwidth_segmentwise p |}.

Definition set_check_task (v : option Sleeper) (p : PlayManager) : PlayManager :=
  {| cfg := cfg p; mpd := mpd p; current_time := current_time p;
     start_time := start_time p;
     check_buffer_sufficient_task := v;
     update_current_time_task := update_current_time_task p;
     abr_controller := abr_controller p; state := state p;
     current_video_representation_ind := current_video_representation_ind p;
     current_audio_representation_ind := current_audio_representation_ind p;
     bandwidth_segmentwise := bandwidth_segmentwise p |}.

Definition set_update_task (v : option Sleeper) (p : PlayManager) : PlayManager :=
  {| cfg := cfg p; mpd := mpd p; current_time := current_time p;
     start_time := start_time p;
     check_buffer_sufficient_task := check_buffer_sufficient_task p;
     update_current_time_task := v;
     abr_controller := abr_controller p; state := state p;
     current_video_representation_ind := current_video_representation_ind p;
     current_audio_representation_ind := current_audio_representation_ind p;
     bandwidth_segmentwise := bandwidth_segmentwise p |}.

Definition set_state (v : State) (p : PlayManager) : PlayManager :=
  {| cfg := cfg p; mpd := mpd p; current_time := current_time p;
     start_time := start_time p;
     check_buffer_sufficient_task := check_buffer_sufficient_task p;
     update_current_time_task := update_current_time_task p;
     abr_controller := abr_controller p; state := v;
     current_video_representation_ind := current_video_representation_ind p;
     current_audio_representation_ind := current_audio_representation_ind p;
     bandwidth_segmentwise := bandwidth_segmentwise p |}.

Definition set_video_representation_ind (v : Z) (p : PlayManager) : PlayManager :=
  {| cfg := cfg p; mpd := mpd p; current_time := current_time p;
     start_time := start_time p;
     check_buffer_sufficient_task := check_buffer_sufficient_task p;
     update_current_time_task := update_current_time_task p;
     abr_controller := abr_controller p; state := state p;
     current_video_representation_ind := v;
     current_audio_representation_ind := current_audio_representation_ind p;
     bandwidth_segmentwise := bandwidth_segmentwise p |}.

Definition set_bandwidth_segmentwise (v : gmap (option Z) value) (p : PlayManager)
  : PlayManager :=
  {| cfg := cfg p; mpd := mpd p; current_time := current_time p;
     start_time := start_time p;
     check_buffer_sufficient_task := check_buffer_sufficient_task p;
     update_current_time_task := update_current_time_task p;
     abr_controller := abr_controller p; state := state p;
     current_video_representation_ind := current_video_representation_ind p;
     current_audio_representation_ind := current_audio_representation_ind p;
     bandwidth_segmentwise := v |}.

Definition set_dm_cfg_mpd (c : option Config) (m : option MPD) (d : DownloadManager)
  : DownloadManager :=
  {| dm_cfg := c; dm_mpd := m; video_ind := video_ind d; audio_ind := audio_ind d;
     dm_abr_controller := dm_abr_controller d; segment_length := segment_length d;
     representation := representation d |}.

Definition set_video_ind (v : option Z) (d : DownloadManager) : DownloadManager :=
  {| dm_cfg := dm_cfg d; dm_mpd := dm_mpd d; video_ind := v; audio_ind := audio_ind d;
     dm_abr_controller := dm_abr_controller d; segment_length := segment_length d;
     representation := representation d |}.

Definition set_segment_length (v : value) (d : DownloadManager) : DownloadManager :=
  {| dm_cfg := dm_cfg d; dm_mpd := dm_mpd d; video_ind := video_ind d;
     audio_ind := audio_ind d;
     dm_abr_controller := dm_abr_controller d; segment_length := v;
     representation := representation d |}.

Definition set_representation (v : option nat) (d : DownloadManager) : DownloadManager :=
  {| dm_cfg := dm_cfg d; dm_mpd := dm_mpd d; video_ind := video_ind d;
     audio_ind := audio_ind d;
     dm_abr_controller := dm_abr_controller d; segment_length := segment_length d;
     representation := v |}.

Definition emit (ev : Ev) : M World unit :=
  modify (fun w => set_trace (trace w ++ [ev]) w).

(** Line 79, the property [buffer_level]:
    [(monitor.BufferMonitor().buffer - self.current_time) * 1000]. *)
Definition buffer_level (w : World) : Q :=
  (buffer w - current_time (pm w)) * 1000.

(** [state == name or state == code], the test [switch_state] makes. *)
Definition names (arg : value) (name : string) (code : Z) : bool :=
  match arg with
  | VStr s => String.eqb s name
  | VInt z => z =? code
  | _ => false
  end.

(** [switch_state] (lines 49-59); an unknown state is logged and ignored. *)
Definition switch_state (arg : value) (p : PlayManager) : PlayManager :=
  if names arg "READY" 0 then set_state READY p
  else if names arg "PLAYING" 1 then set_state PLAYING p
  else if names arg "STALLING" 2 then set_state STALLING p
  else if names arg "STOPPED" 3 then set_state STOPPED p
  else p.

(** The property [ready] (line 63). *)
Definition ready (p : PlayManager) : bool := bool_decide (state p = READY).

(** The properties [playing], [stalling] and [stopped] (lines 65-75). *)
Definition playing (p : PlayManager) : bool := bool_decide (state p = PLAYING).

Definition stalling (p : PlayManager) : bool := bool_decide (state p = STALLING).

Definition stopped (p : PlayManager) : bool := bool_decide (state p = STOPPED).



(** Modelled from the spec: [monitor.BufferMonitor.feed_segment] is not
    among the sources; the spec has it "increase buffer level by that
    segment's duration". *)
Definition feed_segment (d : Q) : M World unit :=
  modify (fun w => set_buffer (buffer w + d) w) ;;
  emit (EvFeedSegment d).

(** Modelled from the spec: [events.EventBridge.add_listener] is not among
    the sources; the spec has it register a handler for a kind, the
    handlers of a kind being kept in registration order. *)
Definition add_listener (event : Events) (h : Handler) (w : World) : World :=
  set_callbacks (<[event := default [] (callbacks w !! event) ++ [h]]> (callbacks w)) w.

(** [self.abr_controller.choose("video")] *)
Definition abr_choose (env : Env) : M World Z :=
  has <- gets (fun w => abr_controller (pm w)) ;;
  (if has : bool then ret tt else raise AttributeError) ;;
  k <- gets chosen ;;
  modify (fun w => set_counts (S k) (requested w) (measured w) w) ;;
  emit (EvChoose (choose env k)) ;;
  ret (choose env k).

(** [DownloadManager().representation =
    self.mpd.videoAdaptationSet.representations[r]] *)
Definition point_at (r : Z) : M World unit :=
  m <- gets (fun w => mpd (pm w)) ;;
  _ <- some_or AttributeError m ;;
  reps <- gets representations ;;
  k <- some_or IndexError (place reps r) ;;
  modify (with_dm (set_representation (Some k))).

(** The object [DownloadManager().representation] refers to. *)
Definition current_representation : M World (nat * Representation) :=
  r <- gets (fun w => representation (dm w)) ;;
  k <- some_or AttributeError r ;;
  reps <- gets representations ;;
  rep <- some_or IndexError (reps !! k) ;;
  ret (k, rep).

(** [self.representation.is_inited = True] on the shared object. *)
Definition mark_inited (k : nat) : M World unit :=
  modify (fun w => set_representations (alter set_inited k (representations w)) w) ;;
  emit (EvInited k).

(** The loop of [DownloadManager.download] (lines 241-249): every chunk
    adds its length in bits to the speed monitor's counter. *)
Fixpoint read_chunks (rs : list (run bytes)) (counter : Z) : Z * run unit :=
  match rs with
  | [] => (counter, Done tt)
  | Done chunk :: rest =>
      if len chunk =? 0 then (counter, Done tt)
      else read_chunks rest (counter + len chunk * 8)
  | Raised x :: _ => (counter, Raised x)
  | Unfinished :: _ => (counter, Unfinished)
  end.

(** [DownloadManager.download] (lines 234-249).  The copy written under
    the output directory changes nothing the managers read. *)
Definition download (resp : Response) : M World unit :=
  c <- gets (fun w => dm_cfg (dm w)) ;;
  _ <- some_or AttributeError c ;;
  h <- some_or KeyError (content_length resp) ;;
  modify (with_dm (set_segment_length (VStr h))) ;;
  fun w =>
    let (counter, how) := read_chunks (reads resp) (downloaded w) in
    (set_downloaded counter w, how).

(** [task = asyncio.create_task(self.download(url))] and [await task]
    (lines 262-269 and 276-283): the await ends when the task does and
    raises what the task raised. *)
Definition fetch (env : Env) (url : string) : M World unit :=
  emit (EvCreateTask url) ;;
  k <- gets requested ;;
  modify (fun w => set_counts (chosen w) (S k) (measured w) w) ;;
  fun w =>
    match download (get env k url) w with
    | (w', Unfinished) => (w', Unfinished)
    | (w', how) => (set_trace (trace w' ++ [EvAwaited url how]) w', how)
    end.

(** [await events.EventBridge().trigger(event)] as the caller sees it: the
    event is handed to the bridge, whose dispatch is [trig]. *)
Definition publish (trig : Events -> M World unit) (event : Events) : M World unit :=
  emit (EvTrigger event) ;;
  trig event.

(** [save_statistical_data] (lines 203-207) *)
Definition save_statistical_data (env : Env) : M World unit :=
  vi <- gets (fun w => video_ind (dm w)) ;;
  k <- gets measured ;;
  modify (fun w => set_counts (chosen w) (requested w) (S k) w) ;;
  modify (with_pm (fun p =>
    set_bandwidth_segmentwise (<[vi := get_speed env k]> (bandwidth_segmentwise p)) p)).

(** [task.cancel()] on a task attribute that is not [None]. *)
Definition cancel_sleeper (t : option Sleeper) : option Sleeper :=
  match t with
  | Some s => Some {| status := fst (cancel (status s)); wake := wake s |}
  | None => None
  end.

(** The loop of [stall] (lines 139-142): nothing it reads changes while it
    alone runs, so it either leaves after one sleep or keeps polling. *)
Fixpoint stall_wait (fuel : nat) : M World unit :=
  match fuel with
  | O => lift Unfinished
  | S fuel' =>
      c <- gets (fun w => cfg (pm w)) ;;
      c <- some_or AttributeError c ;;
      emit (EvSleep (update_interval c)) ;;
      modify (fun w => set_now (now w + update_interval c) w) ;;
      m <- gets (fun w => mpd (pm w)) ;;
      m <- some_or AttributeError m ;;
      enough <- gets (fun w =>
        Qgtb (buffer w - current_time (pm w)) (minBufferTime m)) ;;
      if enough : bool then ret tt else stall_wait fuel'
  end.

(** The task [play] makes of [update_current_time]: its first act is the
    sleep of line 95, which reads [self.cfg]. *)
Definition spawn_update (w : World) : Sleeper :=
  match cfg (pm w) with
  | Some c => {| status := TaskPending; wake := now w + update_interval c |}
  | None => {| status := TaskFinished; wake := now w |}
  end.

(** The body of each registered coroutine; [trig] is the bridge's dispatch. *)
Definition handle (env : Env) (fuel : nat) (trig : Events -> M World unit)
    (h : Handler) : M World unit :=
  match h with
  | can_play => publish trig Play
  | play =>
      modify (fun w => with_pm (set_start_time (now w)) w) ;;
      emit EvSetStartTime ;;
      modify (fun w => with_pm (set_update_task (Some (spawn_update w))) w) ;;
      emit (EvSpawn UpdateCurrentTime) ;;
      modify (fun w => with_pm (set_check_task
                (Some {| status := TaskPending; wake := now w |})) w) ;;
      emit (EvSpawn CheckBufferSufficient) ;;
      modify (with_pm (switch_state (VStr "PLAYING")))
  | stall =>
      u <- gets (fun w => update_current_time_task (pm w)) ;;
      when (bool_decide (u <> None))
           (modify (with_pm (set_update_task (cancel_sleeper u))) ;;
            emit (EvCancel UpdateCurrentTime)) ;;
      c <- gets (fun w => check_buffer_sufficient_task (pm w)) ;;
      when (bool_decide (c <> None))
           (modify (with_pm (set_check_task (cancel_sleeper c))) ;;
            emit (EvCancel CheckBufferSufficient)) ;;
      modify (with_pm (switch_state (VStr "STALLING"))) ;;
      stall_wait fuel ;;
      publish trig Play
  | download_start =>
      r <- abr_choose env ;;
      modify (with_pm (set_video_representation_ind r)) ;;
      point_at r ;;
      kr <- current_representation ;;
      modify (with_dm (set_video_ind (Some (startNumber (snd kr))))) ;;
      publish trig DownloadStart
  | download_next =>
      save_statistical_data env ;;
      kr <- current_representation ;;
      vi <- gets (fun w => video_ind (dm w)) ;;
      i <- some_or TypeError vi ;;
      d <- some_or IndexError (getitem (durations (snd kr)) i) ;;
      feed_segment d ;;
      r <- abr_choose env ;;
      modify (with_pm (set_video_representation_ind r)) ;;
      point_at r ;;
      vi <- gets (fun w => video_ind (dm w)) ;;
      i <- some_or TypeError vi ;;
      modify (with_dm (set_video_ind (Some (i + 1)))) ;;
      publish trig DownloadStart
  | check_canplay =>
      is_ready <- gets (fun w => ready (pm w)) ;;
      if is_ready : bool then
        m <- gets (fun w => mpd (pm w)) ;;
        m <- some_or AttributeError m ;;
        level <- gets buffer_level ;;
        when (Qgtb level (minBufferTime m)) (publish trig CanPlay)
      else ret tt
  | plot =>
      _ <- current_representation ;;
      emit EvPlot
  | start_download =>
      kr <- current_representation ;;
      vi <- gets (fun w => video_ind (dm w)) ;;
      i <- some_or TypeError vi ;;
      if len (urls (snd kr)) <=? i then publish trig DownloadEnd
      else
        when (negb (is_inited (snd kr)))
             (fetch env (initialization (snd kr)) ;;
              mark_inited (fst kr) ;;
              publish trig InitializationDownloadComplete) ;;
        kr <- current_representation ;;
        vi <- gets (fun w => video_ind (dm w)) ;;
        i <- some_or TypeError vi ;;
        url <- some_or IndexError (getitem (urls (snd kr)) i) ;;
        fetch env url ;;
        publish trig DownloadComplete
  end.

(** The handlers of a list, one after the other, each awaited. *)
Fixpoint run_all (run1 : Handler -> M World unit) (hs : list Handler) : M World unit :=
  match hs with
  | [] => ret tt
  | h :: rest => run1 h ;; run_all run1 rest
  end.

(** Modelled from the spec: [events.EventBridge.trigger] is not among the
    sources; the spec has publish "invoke all handlers registered for that
    kind, in registration order, and complete only after every handler has
    completed", an exception of a handler reaching the publisher.  [fuel]
    bounds how deep handlers may publish in turn. *)
Fixpoint trigger (fuel : nat) (env : Env) (event : Events) : M World unit :=
  match fuel with
  | O => lift Unfinished
  | S fuel' =>
      hs <- gets (fun w => default [] (callbacks w !! event)) ;;
      run_all (handle env fuel' (trigger fuel' env)) hs
  end.

(** [PlayManager.init] (lines 98-201) *)
Definition PlayManager_init (c : Config) (m : MPD) (w : World) : World :=
  let w := with_pm (set_cfg_mpd (Some c) (Some m) true) w in
  let w := add_listener CanPlay can_play w in
  let w := add_listener Play play w in
  let w := add_listener Stall stall w in
  let w := add_listener MPDParseComplete download_start w in
  let w := add_listener DownloadComplete download_next w in
  let w := add_listener DownloadComplete check_canplay w in
  if plot_arg c then add_listener End plot w else w.

(** [DownloadManager.init] (lines 251-288) *)
Definition DownloadManager_init (c : Config) (m : MPD) (w : World) : World :=
  let w := with_dm (set_dm_cfg_mpd (Some c) (Some m)) w in
  add_listener DownloadStart start_download w.

(** The world when both singletons are fresh and nothing is registered. *)
Definition fresh (reps : list Representation) : World :=
  {| pm := PlayManager_fresh; dm := DownloadManager_fresh;
     buffer := 0; downloaded := 0; representations := reps;
     callbacks := ∅; now := 0; trace := [];
     chosen := O; requested := O; measured := O |}.

(** A session: both managers initialised on the manifest, then the
    manifest announced. *)
Definition session (fuel : nat) (env : Env) (c : Config) (m : MPD)
    (reps : list Representation) : World * run unit :=
  publish (trigger fuel env) MPDParseComplete
    (DownloadManager_init c m (PlayManager_init c m (fresh reps))).

(** *** The two periodic tasks, in time

    Time is idealised: a sleep is over exactly when asked, and what a task
    does between two sleeps takes no time.  When both sleeps are over at the
    same instant either task may be resumed first. *)

(** When the sleep a live task is suspended in is over. *)
Definition due (t : option Sleeper) : option Q :=
  match t with
  | Some s =>
      match status s with
      | TaskPending => Some (wake s)
      | _ => None
      end
  | None => None
  end.

(** One turn of [update_current_time] (lines 94-96) when its sleep is
    over: the clock advances and the next sleep starts. *)
Definition update_current_time : M World unit :=
  c <- gets (fun w => cfg (pm w)) ;;
  c <- some_or AttributeError c ;;
  modify (with_pm (fun p => set_current_time (current_time p + update_interval c) p)) ;;
  modify (fun w => with_pm (set_update_task
    (Some {| status := TaskPending; wake := now w + update_interval c |})) w).

(** One turn of [check_buffer_sufficient] (lines 81-91) when its sleep is
    over: with a positive level it sleeps that many seconds more; otherwise
    it leaves the loop, never to sleep again, and publishes End or Stall. *)
Definition check_buffer_sufficient (fuel : nat) (env : Env) : M World unit :=
  level <- gets buffer_level ;;
  if Qgtb level 0 then
    emit (EvSleep (level / 1000)) ;;
    modify (fun w => with_pm (set_check_task
      (Some {| status := TaskPending; wake := now w + level / 1000 |})) w)
  else
    modify (fun w => with_pm (set_check_task
      (Some {| status := TaskFinished; wake := now w |})) w) ;;
    m <- gets (fun w => mpd (pm w)) ;;
    m <- some_or AttributeError m ;;
    t <- gets (fun w => current_time (pm w)) ;;
    if Qle_bool (mediaPresentationDuration m) t
    then publish (trigger fuel env) End
    else publish (trigger fuel env) Stall.

(** [t] comes no later than the other task's wake-up, if it has one. *)
Definition comes_first (t : Q) (other : option Q) : Prop :=
  match other with
  | Some o => (t <= o)%Q
  | None => True
  end.

(** The event loop resumes whichever task's sleep is over first. *)
Inductive step (fuel : nat) (env : Env) : World -> World -> Prop :=
| step_update (w : World) (t : Q) :
    due (update_current_time_task (pm w)) = Some t ->
    comes_first t (due (check_buffer_sufficient_task (pm w))) ->
    step fuel env w (fst (update_current_time (set_now t w)))
| step_check (w : World) (t : Q) :
    due (check_buffer_sufficient_task (pm w)) = Some t ->
    comes_first t (due (update_current_time_task (pm w))) ->
    step fuel env w (fst (check_buffer_sufficient fuel env (set_now t w))).

(** The states of a session: those the dispatch of the manifest's
    announcement leaves, and those the periodic tasks lead to from there. *)
Inductive reachable : World -> Prop :=
| reach_session (fuel : nat) (env : Env) (c : Config) (m : MPD)
    (reps : list Representation) :
    reachable (fst (session fuel env c m reps))
| reach_step (fuel : nat) (env : Env) (w w' : World) :
    reachable w -> step fuel env w w' -> reachable w'.

(** *** Running the two periodic tasks *)





End Managers.

Import Managers.

(** ** Concrete sessions *)
Module Scenario.

#[local] Open Scope string_scope.

(** A response that declares 500000 bytes and whose body is still being
    read. *)
Definition in_flight_response : Response :=
  {| content_length := Some "500000";
     reads := [Done [Byte.x00; Byte.x01]; Unfinished] |}.

(** A response of three bytes in two chunks. *)
Definition small_response : Response :=
  {| content_length := Some "3";
     reads := [Done [Byte.x00; Byte.x01]; Done [Byte.x02]] |}.

(** One representation of two 2-second segments, already initialised. *)
Definition two_segments : Representation :=
  {| id := "v1"; bandwidth := 500000;
     urls := ["seg0.m4s"; "seg1.m4s"]; durations := [2%Q; 2%Q];
     startNumber := 0; initialization := "init.mp4"; is_inited := true |}.

(** The emulator's options: at most 8 seconds of buffer, a download may
    take one and a half times its deadline. *)
Definition emulator_cfg : Emulator.Config :=
  {| Emulator.max_buffer := 8;
     Emulator.timeout_max_ratio := 3 # 2;
     Emulator.min_frame_chunk_ratio := 1 # 10;
     Emulator.vq_threshold_size_ratio := 1 # 2 |}.

(** Collaborators of the emulator: a bandwidth estimate of 1,000,000
    bits/sec, a buffer monitor that reports 10 seconds, small responses. *)
Definition emulator_env : Emulator.Env :=
  {| Emulator.get_speed := VInt 1000000;
     Emulator.choose := fun _ => O;
     Emulator.buffer_level := fun _ => 10%Q;
     Emulator.get := fun _ _ => small_response |}.

(** The emulator while the download that declared 500000 bytes is in
    flight. *)
Definition downloading : Emulator.Emulator :=
  Emulator.set_task (Some TaskPending)
    (fst (Emulator.download_segment in_flight_response
            (Emulator.init [two_segments]))).

(** The same, had the declared length been stored as the number 500000. *)
Definition downloading_numeric : Emulator.Emulator :=
  Emulator.set_task (Some TaskPending)
    (Emulator.set_segment_content_length (VInt 500000)
       (Emulator.init [two_segments])).

(** A manifest of one representation with a single segment of [d] seconds. *)
Definition one_segment (d : Q) : Representation :=
  {| id := "v1"; bandwidth := 500000;
     urls := ["seg0.m4s"]; durations := [d];
     startNumber := 0; initialization := "init.mp4"; is_inited := false |}.

(** A manifest of one representation with ten segments of 2 seconds. *)
Definition ten_segments : Representation :=
  {| id := "v1"; bandwidth := 500000;
     urls := ["s0"; "s1"; "s2"; "s3"; "s4"; "s5"; "s6"; "s7"; "s8"; "s9"];
     durations := [2%Q; 2%Q; 2%Q; 2%Q; 2%Q; 2%Q; 2%Q; 2%Q; 2%Q; 2%Q];
     startNumber := 0; initialization := "init.mp4"; is_inited := false |}.

Definition manager_cfg : Config :=
  {| update_interval := 1; chunk_size := 40960; output := None;
     plot_arg := false |}.

Definition manager_env : Env :=
  {| choose := fun _ => 0; get_speed := fun _ => VInt 1000000;
     get := fun _ _ => small_response |}.

(** minBufferTime of 4 seconds. *)
Definition four_second_threshold (duration : Q) : MPD :=
  {| minBufferTime := 4; mediaPresentationDuration := duration |}.

(** The session on a single 2-second segment with a 4-second threshold. *)
Definition short_session : World :=
  fst (session 20 manager_env manager_cfg (four_second_threshold 2) [one_segment 2]).

(** The session on ten 2-second segments with a 4-second threshold. *)
Definition long_session : World :=
  fst (session 60 manager_env manager_cfg (four_second_threshold 20) [ten_segments]).




(** Both managers initialised on a single 2-second segment and the
    download manager primed with it, at the segment of the given index. *)
Definition primed (index : Z) : World :=
  with_dm (fun d => set_video_ind (Some index) (set_representation (Some O) d))
    (DownloadManager_init manager_cfg (four_second_threshold 2)
       (PlayManager_init manager_cfg (four_second_threshold 2)
          (fresh [one_segment 2]))).



(** Three constructor calls on a process that has had none. *)
Definition three_calls : list Class :=
  [DownloadManagerClass; PlayManagerClass; DownloadManagerClass].






(** The emulator with 500000 bytes declared as a number, once the monitor
    has set the forced-degrade flag. *)
Definition degraded : Emulator.Emulator :=
  Emulator.set_lowest true downloading_numeric.

(** Two turns of the speed sampler: the counter reads 0 and 3 in the first,
    3 and 10 in the second. *)
Definition two_samples : list (Emulator.Emulator * Emulator.Emulator) :=
  [(Emulator.init [two_segments],
    Emulator.set_data_downloaded 3 (Emulator.init [two_segments]));
   (Emulator.set_data_downloaded 3 (Emulator.init [two_segments]),
    Emulator.set_data_downloaded 10 (Emulator.init [two_segments]))].

End Scenario.

(** ** Notions the properties are stated with *)
Module Notions.

(** A coroutine is tidy when all it does to the trace is add events that
    never put a second download in flight, and none is left in flight
    unless the coroutine is still running. *)
Definition tidy {S A : Type} (tr : S -> list Ev) (m : M S A) : Prop :=
  forall s : S, exists more : list Ev,
    tr (fst (m s)) = tr s ++ more
    /\ one_at_a_time more
    /\ (snd (m s) <> Unfinished -> in_flight more = 0).

(** Identities are handed out in order: no object lives at an identity
    that is still to be handed out. *)
Definition well_formed (p : Process) : Prop :=
  forall a : nat, is_Some (heap p !! a) -> (a < next p)%nat.

(** The class attribute [_instance] of a class. *)
Definition instance (c : Class) (p : Process) : option nat :=
  match c with
  | PlayManagerClass => PlayManager_instance p
  | DownloadManagerClass => DownloadManager_instance p
  end.

(** The object belongs to the class and [__init__] has run on it. *)
Definition initialised (c : Class) (o : Object) : Prop :=
  match c, o with
  | PlayManagerClass, PlayManagerObject true _ => True
  | DownloadManagerClass, DownloadManagerObject true _ => True
  | _, _ => False
  end.



(** How often the monitor called [self.task.cancel()], and how often the
    task accepted. *)
Fixpoint cancel_calls (tr : list Ev) : nat :=
  match tr with
  | [] => O
  | EvCancelDownload _ :: rest => S (cancel_calls rest)
  | _ :: rest => cancel_calls rest
  end.

Fixpoint cancellations (tr : list Ev) : nat :=
  match tr with
  | [] => O
  | EvCancelDownload true :: rest => S (cancellations rest)
  | _ :: rest => cancellations rest
  end.

End Notions.

Import Notions.

(** ** Relations between the state a coroutine starts in and the one it leaves *)
Module Laws.

(** The coroutine leaves every state in relation [R] with the one it
    started in, however it ends. *)
Definition keeps {S A : Type} (R : S -> S -> Prop) (m : M S A) : Prop :=
  forall s : S, R s (fst (m s)).

(** The same representation, except that the initialisation flag may have
    been set. *)
Definition same_but_inited (r r' : Representation) : Prop :=
  id r' = id r /\ bandwidth r' = bandwidth r /\ urls r' = urls r
  /\ durations r' = durations r /\ startNumber r' = startNumber r
  /\ initialization r' = initialization r
  /\ (is_inited r = true -> is_inited r' = true).

Definition manifest_kept (l l' : list Representation) : Prop :=
  Forall2 same_but_inited l l'.

(** What [Emulator.start] keeps: the byte counter has not gone down, the
    manifest is the same up to flags set, and the forced-degrade flag is
    as it was. *)
Definition emulator_kept (e e' : Emulator.Emulator) : Prop :=
  Emulator.data_downloaded e <= Emulator.data_downloaded e'
  /\ manifest_kept (Emulator.representations e) (Emulator.representations e')
  /\ Emulator.set_to_lowest_quaity e' = Emulator.set_to_lowest_quaity e.

(** What the dispatch of an event keeps: the bit counter has not gone down,
    the manifest is the same up to flags set, the registrations, the
    configuration, the manifest's scalars and the playback clock are as
    they were, and a player that had left READY, or was not STOPPED, still
    has, resp. is not. *)
Definition world_kept (w w' : World) : Prop :=
  downloaded w <= downloaded w'
  /\ manifest_kept (representations w) (representations w')
  /\ callbacks w' = callbacks w
  /\ cfg (pm w') = cfg (pm w) /\ mpd (pm w') = mpd (pm w)
  /\ dm_cfg (dm w') = dm_cfg (dm w) /\ dm_mpd (dm w') = dm_mpd (dm w)
  /\ current_time (pm w') = current_time (pm w)
  /\ (state (pm w) <> READY -> state (pm w') <> READY)
  /\ (state (pm w) <> STOPPED -> state (pm w') <> STOPPED).

(** The URLs of the download tasks a trace creates, in order. *)
Fixpoint created (tr : list Ev) : list string :=
  match tr with
  | [] => []
  | EvCreateTask url :: rest => url :: created rest
  | _ :: rest => created rest
  end.

(** The durations a trace feeds to the buffer monitor, in order. *)
Fixpoint fed (tr : list Ev) : list Q :=
  match tr with
  | [] => []
  | EvFeedSegment d :: rest => d :: fed rest
  | _ :: rest => fed rest
  end.


(** A response the emulator reads to its end without an exception. *)
Definition reads_to_end (resp : Response) : Prop :=
  content_length resp <> None
  /\ forall counter, snd (Emulator.read_chunks (reads resp) counter) = Done tt.

(** The readings of [feed_speed_monitor] follow one another: each turn
    starts on the counter the turn before ended on. *)
Fixpoint contiguous (first : Z) (turns_seen : list (Emulator.Emulator * Emulator.Emulator))
  : Prop :=
  match turns_seen with
  | [] => True
  | seen :: later =>
      Emulator.data_downloaded (fst seen) = first
      /\ contiguous (Emulator.data_downloaded (snd seen)) later
  end.

(** The counter the last turn ended on. *)
Fixpoint last_reading (first : Z) (turns_seen : list (Emulator.Emulator * Emulator.Emulator))
  : Z :=
  match turns_seen with
  | [] => first
  | seen :: later => last_reading (Emulator.data_downloaded (snd seen)) later
  end.

(** The sum of the bytes fed to the speed monitor. *)
Fixpoint bytes_fed (samples : list (Z * Q)) : Z :=
  match samples with
  | [] => 0
  | sample :: later => fst sample + bytes_fed later
  end.

(** The monitor has left the download alone: the task, the forced-degrade
    flag and the number of calls of [cancel] are as they were. *)
Definition download_untouched (e e' : Emulator.Emulator) : Prop :=
  Emulator.task e' = Emulator.task e
  /\ Emulator.set_to_lowest_quaity e' = Emulator.set_to_lowest_quaity e
  /\ cancel_calls (Emulator.trace e') = cancel_calls (Emulator.trace e).

(** A forced-degrade flag that was set is still set. *)
Definition flag_stays (e e' : Emulator.Emulator) : Prop :=
  Emulator.set_to_lowest_quaity e = true -> Emulator.set_to_lowest_quaity e' = true.

(** Every reading of the monitor's clock is within the deadline times the
    configured ratio. *)
Definition within_allowance (cfg : Emulator.Config) (deadline : Q) (clock : list Q)
  : Prop :=
  Forall (fun elapsed => (elapsed <= deadline * Emulator.timeout_max_ratio cfg)%Q) clock.

(** The handlers the two [init] methods register for the events of the
    download chain and of the start of playback. *)
Definition registered (w : World) : Prop :=
  callbacks w !! DownloadStart = Some [start_download]
  /\ callbacks w !! DownloadComplete = Some [download_next; check_canplay]
  /\ callbacks w !! DownloadEnd = None
  /\ callbacks w !! InitializationDownloadComplete = None
  /\ callbacks w !! CanPlay = Some [can_play]
  /\ callbacks w !! Play = Some [play].

(** The download manager is set up and primed with the representation at
    place [k], the one the ABR controller keeps choosing, at index [ind]. *)
Definition primed_at (env : Env) (k : nat) (rep : Representation) (ind : Z) (w : World)
  : Prop :=
  registered w
  /\ mpd (pm w) <> None /\ abr_controller (pm w) = true /\ dm_cfg (dm w) <> None
  /\ representation (dm w) = Some k /\ representations w !! k = Some rep
  /\ video_ind (dm w) = Some ind
  /\ (forall n, place (representations w) (choose env n) = Some k).


End Laws.

Import Laws.

(** * Properties *)

(** ** The byte counters *)










(** ** Traces: what a coroutine adds, and how many downloads are in flight *)

Lemma in_flight_app (a b : list Ev) : in_flight (a ++ b) = in_flight a + in_flight b.
Proof. induction a as [|e a IH]; simpl; [reflexivity | rewrite IH; lia]. Qed.

Lemma one_at_a_time_nil : one_at_a_time [].
Proof. intros n. rewrite firstn_nil. simpl. lia. Qed.

Lemma one_at_a_time_app (a b : list Ev) :
  one_at_a_time a -> in_flight a = 0 -> one_at_a_time b -> one_at_a_time (a ++ b).
Proof.
  intros Ha H0 Hb n. rewrite firstn_app, in_flight_app.
  destruct (Nat.le_gt_cases (List.length a) n) as [Hle|Hlt].
  - rewrite firstn_all2 by exact Hle. rewrite H0.
    specialize (Hb (n - List.length a)%nat). lia.
  - replace (n - List.length a)%nat with O by lia. simpl.
    specialize (Ha n). lia.
Qed.

Lemma one_at_a_time_quiet (ev : Ev) : in_flight_delta ev = 0 -> one_at_a_time [ev].
Proof.
  intros H [|[|n]]; simpl; rewrite ?H; try lia.
Qed.

Lemma one_at_a_time_created (url : string) : one_at_a_time [EvCreateTask url].
Proof. intros [|[|n]]; simpl; lia. Qed.

Lemma one_at_a_time_fetched (url : string) (how : run unit) :
  one_at_a_time [EvCreateTask url; EvAwaited url how].
Proof. intros [|[|[|n]]]; simpl; lia. Qed.

Section Tidy.

Context {S : Type} (tr : S -> list Ev).

#[local] Abbreviation tidy := (tidy tr).

Lemma tidy_silent {A : Type} (m : M S A) :
  (forall s, tr (fst (m s)) = tr s) -> tidy m.
Proof.
  intros H s. exists []. rewrite H, app_nil_r.
  split; [reflexivity|]. split; [apply one_at_a_time_nil | reflexivity].
Qed.

Lemma tidy_ret {A : Type} (a : A) : tidy (ret a).
Proof. apply tidy_silent. reflexivity. Qed.

Lemma tidy_raise {A : Type} (e : exn) : tidy (raise (A := A) e).
Proof. apply tidy_silent. reflexivity. Qed.

Lemma tidy_lift {A : Type} (r : run A) : tidy (lift r).
Proof. apply tidy_silent. reflexivity. Qed.

Lemma tidy_gets {A : Type} (f : S -> A) : tidy (gets f).
Proof. apply tidy_silent. reflexivity. Qed.

Lemma tidy_modify (f : S -> S) : (forall s, tr (f s) = tr s) -> tidy (modify f).
Proof. intros H. apply tidy_silent. exact H. Qed.

Lemma tidy_some_or {A : Type} (e : exn) (o : option A) : tidy (some_or e o).
Proof. destruct o; [apply tidy_ret | apply tidy_raise]. Qed.

Lemma tidy_bind {A B : Type} (m : M S A) (k : A -> M S B) :
  tidy m -> (forall a, tidy (k a)) -> tidy (bind m k).
Proof.
  intros Hm Hk s. unfold bind.
  destruct (Hm s) as (more1 & E1 & O1 & Z1).
  destruct (m s) as [s1 [a|x|]]; simpl in *.
  - destruct (Hk a s1) as (more2 & E2 & O2 & Z2).
    exists (more1 ++ more2). rewrite E2, E1, app_assoc.
    assert (in_flight more1 = 0) as Z by (apply Z1; discriminate).
    split; [reflexivity|]. split.
    + apply one_at_a_time_app; assumption.
    + intros H. rewrite in_flight_app, Z, (Z2 H). reflexivity.
  - exists more1. split; [exact E1|]. split; [exact O1|].
    intros _. apply Z1. discriminate.
  - exists more1. split; [exact E1|]. split; [exact O1|].
    intros H. contradiction.
Qed.

Lemma tidy_when (b : bool) (m : M S unit) : tidy m -> tidy (when b m).
Proof. destruct b; [auto | intros _; apply tidy_ret]. Qed.

End Tidy.

Lemma emulator_tidy_emit (ev : Ev) :
  in_flight_delta ev = 0 -> tidy Emulator.trace (Emulator.emit ev).
Proof.
  intros H e. exists [ev]. simpl.
  split; [reflexivity|]. split; [apply one_at_a_time_quiet, H | lia].
Qed.

Lemma manager_tidy_emit (ev : Ev) : in_flight_delta ev = 0 -> tidy trace (emit ev).
Proof.
  intros H w. exists [ev]. simpl.
  split; [reflexivity|]. split; [apply one_at_a_time_quiet, H | lia].
Qed.

(** [download_segment] leaves the trace alone. *)
Lemma download_segment_trace (resp : Response) (e : Emulator.Emulator) :
  Emulator.trace (fst (Emulator.download_segment resp e)) = Emulator.trace e.
Proof.
  unfold Emulator.download_segment, bind, some_or, modify, ret, raise.
  destruct (content_length resp); simpl; [|reflexivity].
  destruct (Emulator.read_chunks _ _); reflexivity.
Qed.

(** [DownloadManager.download] leaves the trace alone. *)
Lemma download_trace (resp : Response) (w : World) :
  trace (fst (download resp w)) = trace w.
Proof.
  unfold download, bind, some_or, modify, ret, raise, gets.
  destruct (dm_cfg (dm w)); simpl; [|reflexivity].
  destruct (content_length resp); simpl; [|reflexivity].
  destruct (Managers.read_chunks _ _); reflexivity.
Qed.

(** The emulator's create-and-await adds the creation and, once the task
    has ended, the end of the await. *)
Lemma emulator_tidy_download (env : Emulator.Env) (url : string) :
  tidy Emulator.trace (Emulator.download env url).
Proof.
  intros e. unfold Emulator.download, Emulator.emit, bind, modify, gets. simpl.
  match goal with
  | |- context [Emulator.download_segment ?r ?x] =>
      pose proof (download_segment_trace r x) as T;
      destruct (Emulator.download_segment r x) as [e' [[]|x'|]]
  end; simpl in T |- *.
  - exists [EvCreateTask url; EvAwaited url (Done tt)]. rewrite T, <- app_assoc.
    split; [reflexivity|]. split; [apply one_at_a_time_fetched | reflexivity].
  - exists [EvCreateTask url; EvAwaited url (Raised x')].
    destruct x'; simpl; rewrite T, <- app_assoc;
      (split; [reflexivity|]); (split; [apply one_at_a_time_fetched | reflexivity]).
  - exists [EvCreateTask url]. rewrite T.
    split; [reflexivity|]. split; [apply one_at_a_time_created | congruence].
Qed.

(** So does the download manager's. *)
Lemma manager_tidy_fetch (env : Env) (url : string) : tidy trace (fetch env url).
Proof.
  intros w. unfold fetch, emit, bind, modify, gets. simpl.
  match goal with
  | |- context [download ?r ?x] =>
      pose proof (download_trace r x) as T;
      destruct (download r x) as [w' [[]|x'|]]
  end; simpl in T |- *.
  - exists [EvCreateTask url; EvAwaited url (Done tt)]. rewrite T, <- app_assoc.
    split; [reflexivity|]. split; [apply one_at_a_time_fetched | reflexivity].
  - exists [EvCreateTask url; EvAwaited url (Raised x')]. rewrite T, <- app_assoc.
    split; [reflexivity|]. split; [apply one_at_a_time_fetched | reflexivity].
  - exists [EvCreateTask url]. rewrite T.
    split; [reflexivity|]. split; [apply one_at_a_time_created | congruence].
Qed.

(** Takes a coroutine apart along its binds. *)
Ltac tidy_step :=
  first
    [ apply emulator_tidy_download
    | apply manager_tidy_fetch
    | match goal with H : _ |- _ => apply H end
    | apply tidy_bind; [|intros ?]
    | apply tidy_ret
    | apply tidy_raise
    | apply tidy_gets
    | apply tidy_lift
    | apply tidy_some_or
    | apply tidy_when
    | apply tidy_modify; intros ?; reflexivity
    | apply emulator_tidy_emit; reflexivity
    | apply manager_tidy_emit; reflexivity
    | match goal with
      | |- tidy _ (if ?b then _ else _) => destruct b
      | |- tidy _ (match ?o with Some _ => _ | None => _ end) => destruct o
      end ].

Ltac tidy_all := repeat tidy_step.

Lemma emulator_tidy_abr_choose (env : Emulator.Env) :
  tidy Emulator.trace (Emulator.abr_choose env).
Proof. unfold Emulator.abr_choose. tidy_all. Qed.

Lemma emulator_tidy_mark_inited (r : nat) : tidy Emulator.trace (Emulator.mark_inited r).
Proof. unfold Emulator.mark_inited. tidy_all. Qed.

Lemma emulator_tidy_start_loop (fuel : nat) (cfg : Emulator.Config) (env : Emulator.Env)
    (ind : Z) (rep : Representation) :
  tidy Emulator.trace (Emulator.start_loop fuel cfg env ind rep).
Proof.
  revert ind rep.
  induction fuel as [|fuel IH]; intros ind rep; simpl; [apply tidy_lift|].
  pose proof emulator_tidy_abr_choose. pose proof emulator_tidy_mark_inited.
  tidy_all.
Qed.

Lemma emulator_tidy_start (fuel : nat) (cfg : Emulator.Config) (env : Emulator.Env) :
  tidy Emulator.trace (Emulator.start fuel cfg env).
Proof.
  unfold Emulator.start.
  pose proof emulator_tidy_abr_choose. pose proof emulator_tidy_start_loop.
  tidy_all.
Qed.

Lemma manager_tidy_publish (trig : Events -> M World unit) (event : Events) :
  (forall ev, tidy trace (trig ev)) -> tidy trace (publish trig event).
Proof. intros H. unfold publish. tidy_all. Qed.

Lemma manager_tidy_current_representation : tidy trace current_representation.
Proof. unfold current_representation. tidy_all. Qed.

Lemma manager_tidy_abr_choose (env : Env) : tidy trace (abr_choose env).
Proof. unfold abr_choose. tidy_all. Qed.

Lemma manager_tidy_point_at (r : Z) : tidy trace (point_at r).
Proof. unfold point_at. tidy_all. Qed.

Lemma manager_tidy_stall_wait (fuel : nat) : tidy trace (stall_wait fuel).
Proof.
  induction fuel as [|fuel IH]; simpl; [apply tidy_lift|]. tidy_all.
Qed.

Lemma manager_tidy_handle (env : Env) (fuel : nat) (trig : Events -> M World unit)
    (h : Handler) :
  (forall ev, tidy trace (trig ev)) -> tidy trace (handle env fuel trig h).
Proof.
  intros H.
  pose proof (fun ev => manager_tidy_publish trig ev H).
  pose proof manager_tidy_current_representation.
  pose proof manager_tidy_abr_choose. pose proof manager_tidy_point_at.
  pose proof manager_tidy_stall_wait.
  destruct h; unfold handle, save_statistical_data, feed_segment, mark_inited;
    tidy_all.
Qed.

Lemma manager_tidy_run_all (run1 : Handler -> M World unit) (hs : list Handler) :
  (forall h, tidy trace (run1 h)) -> tidy trace (run_all run1 hs).
Proof. intros H. induction hs as [|h hs IH]; simpl; tidy_all. Qed.

Lemma manager_tidy_trigger (fuel : nat) (env : Env) (event : Events) :
  tidy trace (trigger fuel env event).
Proof.
  revert event. induction fuel as [|fuel IH]; intros event; simpl; [apply tidy_lift|].
  tidy_all. apply manager_tidy_run_all. intros h. apply manager_tidy_handle, IH.
Qed.

(** C1. In every trace of a session at most one download is in flight at
    any instant, in the emulator's polling loop and in the event-driven
    managers: whatever the state [start] or a published event begins in,
    the events added never create a download task before the await on the
    previous one has ended, by completion, failure or cancellation. *)
Theorem one_download_at_a_time :
  (forall (fuel : nat) (cfg : Emulator.Config) (env : Emulator.Env)
          (e : Emulator.Emulator),
      exists more : list Ev,
        Emulator.trace (fst (Emulator.start fuel cfg env e)) = Emulator.trace e ++ more
        /\ one_at_a_time more)
  /\ (forall (fuel : nat) (env : Env) (event : Events) (w : World),
      exists more : list Ev,
        trace (fst (publish (trigger fuel env) event w)) = trace w ++ more
        /\ one_at_a_time more).
Proof.
  split.
  - intros fuel cfg env e.
    destruct (emulator_tidy_start fuel cfg env e) as (more & E & O & _).
    exists more. split; assumption.
  - intros fuel env event w.
    destruct (manager_tidy_publish (trigger fuel env) event
                (manager_tidy_trigger fuel env) w) as (more & E & O & _).
    exists more. split; assumption.
Qed.

(** ** The singletons *)

(** A call on a class whose instance is initialised returns that instance
    and changes nothing. *)
Lemma call_settled (c : Class) (p : Process) (a : nat) (o : Object) :
  instance c p = Some a -> heap p !! a = Some o -> initialised c o ->
  call c p = (a, p).
Proof.
  intros Hi Ha Ho.
  destruct c, o as [[] attrs|[] attrs]; simpl in Hi, Ho; try contradiction.
  - unfold call, PlayManager_call, PlayManager__new__, is_PlayManager.
    rewrite Hi, Ha. unfold PlayManager__init__. rewrite Ha. reflexivity.
  - unfold call, DownloadManager_call, DownloadManager__new__, is_DownloadManager.
    rewrite Hi, Ha. unfold DownloadManager__init__. rewrite Ha. reflexivity.
Qed.

(** After a call the class has an initialised instance, the one returned. *)
Lemma call_settles (c : Class) (p : Process) :
  instance c (snd (call c p)) = Some (fst (call c p))
  /\ exists o, heap (snd (call c p)) !! fst (call c p) = Some o /\ initialised c o.
Proof.
  destruct c; simpl.
  - unfold PlayManager_call, PlayManager__new__, is_PlayManager.
    destruct (PlayManager_instance p) as [a|] eqn:Hi;
      [destruct (heap p !! a) as [[[] attrs|]|] eqn:Ha|];
      simpl; unfold PlayManager__init__; simpl;
      rewrite ?Ha, ?lookup_insert_eq; simpl; rewrite ?lookup_insert_eq;
      try (split; [first [exact Hi | reflexivity] | eexists; split; [first [exact Ha | reflexivity] | exact I]]).
  - unfold DownloadManager_call, DownloadManager__new__, is_DownloadManager.
    destruct (DownloadManager_instance p) as [a|] eqn:Hi;
      [destruct (heap p !! a) as [[|[] attrs]|] eqn:Ha|];
      simpl; unfold DownloadManager__init__; simpl;
      rewrite ?Ha, ?lookup_insert_eq; simpl; rewrite ?lookup_insert_eq;
      try (split; [first [exact Hi | reflexivity] | eexists; split; [first [exact Ha | reflexivity] | exact I]]).
Qed.

(** A call never disturbs identities in use. *)
Lemma call_well_formed (d : Class) (p : Process) :
  well_formed p -> well_formed (snd (call d p)).
Proof.
  intros W. destruct d; simpl.
  - unfold PlayManager_call, PlayManager__new__, is_PlayManager.
    destruct (PlayManager_instance p) as [a|] eqn:Hi;
      [destruct (heap p !! a) as [[[] attrs|]|] eqn:Ha|];
      simpl; unfold PlayManager__init__; simpl;
      rewrite ?Ha, ?lookup_insert_eq; simpl; try exact W;
      intros b; simpl; rewrite ?lookup_insert; repeat case_decide; subst; simpl;
      intros Hb; try (specialize (W b Hb)); try lia;
      try (assert (is_Some (heap p !! b)) as Hb' by (rewrite Ha; eauto);
           specialize (W b Hb'); lia).
  - unfold DownloadManager_call, DownloadManager__new__, is_DownloadManager.
    destruct (DownloadManager_instance p) as [a|] eqn:Hi;
      [destruct (heap p !! a) as [[|[] attrs]|] eqn:Ha|];
      simpl; unfold DownloadManager__init__; simpl;
      rewrite ?Ha, ?lookup_insert_eq; simpl; try exact W;
      intros b; simpl; rewrite ?lookup_insert; repeat case_decide; subst; simpl;
      intros Hb; try (specialize (W b Hb)); try lia;
      try (assert (is_Some (heap p !! b)) as Hb' by (rewrite Ha; eauto);
           specialize (W b Hb'); lia).
Qed.

(** A call leaves the initialised instance of a class where and as it is,
    whichever class is called. *)
Lemma call_frame (c d : Class) (p : Process) (a : nat) (o : Object) :
  well_formed p ->
  instance c p = Some a -> heap p !! a = Some o -> initialised c o ->
  instance c (snd (call d p)) = Some a /\ heap (snd (call d p)) !! a = Some o.
Proof.
  intros W Hi Ha Ho.
  assert (a < next p)%nat as Hlt by (apply W; rewrite Ha; eauto).
  destruct c, d; try (rewrite (call_settled _ p a o Hi Ha Ho); simpl; auto).
  - (* PlayManager's instance, DownloadManager() called *)
    destruct o as [[] attrs|[] attrs]; simpl in Ho; try contradiction.
    simpl in *. unfold DownloadManager_call, DownloadManager__new__, is_DownloadManager.
    destruct (DownloadManager_instance p) as [b|] eqn:Hj;
      [destruct (heap p !! b) as [[|[] battrs]|] eqn:Hb|];
      simpl; unfold DownloadManager__init__; simpl;
      rewrite ?Hb, ?lookup_insert_eq; simpl; auto;
      (split; [exact Hi|]);
      rewrite ?lookup_insert; repeat case_decide; subst; auto; try congruence; lia.
  - (* DownloadManager's instance, PlayManager() called *)
    destruct o as [[] attrs|[] attrs]; simpl in Ho; try contradiction.
    simpl in *. unfold PlayManager_call, PlayManager__new__, is_PlayManager.
    destruct (PlayManager_instance p) as [b|] eqn:Hj;
      [destruct (heap p !! b) as [[[] battrs|]|] eqn:Hb|];
      simpl; unfold PlayManager__init__; simpl;
      rewrite ?Hb, ?lookup_insert_eq; simpl; auto;
      (split; [exact Hi|]);
      rewrite ?lookup_insert; repeat case_decide; subst; auto; try congruence; lia.
Qed.

(** Every call of a class in a sequence returns its initialised instance,
    and the sequence leaves that object as it was. *)
Lemma calls_same_instance (cs : list Class) (c : Class) (p : Process) (a : nat)
    (o : Object) :
  well_formed p ->
  instance c p = Some a -> heap p !! a = Some o -> initialised c o ->
  Forall2 (fun d r => d = c -> r = a) cs (fst (calls cs p))
  /\ heap (snd (calls cs p)) !! a = Some o.
Proof.
  revert p. induction cs as [|d cs IH]; intros p W Hi Ha Ho; simpl.
  - split; [constructor | exact Ha].
  - destruct (call d p) as [r p1] eqn:E.
    destruct (call_frame c d p a o W Hi Ha Ho) as [Hi1 Ha1].
    pose proof (call_well_formed d p W) as W1.
    rewrite E in Hi1, Ha1, W1. simpl in Hi1, Ha1, W1.
    specialize (IH p1 W1 Hi1 Ha1 Ho).
    destruct (calls cs p1) as [rs p2]. simpl in *.
    destruct IH as [IH1 IH2]. split; [|exact IH2].
    constructor; [|exact IH1].
    intros ->. rewrite (call_settled c p a o Hi Ha Ho) in E. congruence.
Qed.

(** C10. Constructing [PlayManager()] or [DownloadManager()] is idempotent:
    a second call returns the instance of the first and leaves the process
    as the first left it; a call on a class whose instance is initialised
    returns it and changes no attribute, whatever the attributes have
    become; and in every sequence of constructor calls each call of the
    class returns that one instance, whose attributes the sequence leaves
    unchanged. *)
Theorem constructors_are_idempotent :
  (forall (c : Class) (p : Process), call c (snd (call c p)) = call c p)
  /\ (forall (c : Class) (p : Process) (a : nat) (o : Object),
        instance c p = Some a -> heap p !! a = Some o -> initialised c o ->
        call c p = (a, p))
  /\ (forall (cs : list Class) (c : Class) (p : Process),
        well_formed p ->
        let first := call c p in
        let later := calls cs (snd first) in
        Forall2 (fun d r => d = c -> r = fst first) cs (fst later)
        /\ heap (snd later) !! fst first = heap (snd first) !! fst first).
Proof.
  split; [|split].
  - intros c p. destruct (call_settles c p) as (Hi & o & Ha & Ho).
    rewrite (call_settled c _ _ o Hi Ha Ho). destruct (call c p); reflexivity.
  - exact call_settled.
  - intros cs c p W first later. subst first later.
    destruct (call_settles c p) as (Hi & o & Ha & Ho).
    pose proof (call_well_formed c p W) as W1.
    destruct (calls_same_instance cs c _ _ o W1 Hi Ha Ho) as [F H].
    split; [exact F | congruence].
Qed.

(** ** The progress monitor's deadline *)

Lemma download_segment_length (resp : Response) (h : string) (e : Emulator.Emulator) :
  content_length resp = Some h ->
  Emulator.segment_content_length (fst (Emulator.download_segment resp e)) = VStr h.
Proof.
  intros H. unfold Emulator.download_segment, bind, some_or, modify, ret.
  rewrite H. simpl. destruct (Emulator.read_chunks _ _). reflexivity.
Qed.

(** Once a response has arrived the stored length is the header's string,
    and line 48 raises on it whatever the bandwidth estimate is. *)
Lemma timeout_of_header (resp : Response) (h : string) (bandwidth : value)
    (e : Emulator.Emulator) :
  content_length resp = Some h ->
  Emulator.timeout bandwidth (fst (Emulator.download_segment resp e)) = Raised TypeError.
Proof.
  intros H. unfold Emulator.timeout.
  rewrite (download_segment_length resp h e H). simpl.
  destruct bandwidth; reflexivity.
Qed.

(** On a stored length that is a number the deadline is the length in bits
    over the bandwidth estimate. *)
Lemma timeout_of_number (length bandwidth : Z) (e : Emulator.Emulator) :
  Emulator.segment_content_length e = VInt length -> bandwidth <> 0 ->
  exists q, Emulator.timeout (VInt bandwidth) e = Done (VFloat q)
            /\ (q == inject_Z (length * 8) / inject_Z bandwidth)%Q.
Proof.
  intros H Hb. unfold Emulator.timeout. rewrite H. simpl.
  destruct (bandwidth =? 0) eqn:E; [apply Z.eqb_eq in E; contradiction|].
  eexists. split; reflexivity.
Qed.

(** C3. With a bandwidth estimate of 1,000,000 bits/sec and a response that
    declares 500,000 bytes, the deadline the monitor computes while that
    download is in flight is no number: line 48 raises TypeError on the
    header's string.  Had the length been stored as the number 500000 the
    deadline would be 4 seconds. *)
Theorem deadline_of_declared_length :
  Emulator.timeout (VInt 1000000) Scenario.downloading = Raised TypeError
  /\ exists q, Emulator.timeout (VInt 1000000) Scenario.downloading_numeric
               = Done (VFloat q) /\ (q == 4)%Q.
Proof.
  split; [reflexivity|].
  eexists. split; [reflexivity|]. reflexivity.
Qed.

(** C4. While the download that declared 500,000 bytes is in flight the
    monitor raises before its loop: read after 6.1 and 6.15 seconds, past
    the 6 seconds of deadline times max-ratio, the clock triggers no
    cancellation and the forced-degrade flag stays unset.  On a numeric
    length the loop cancels at the first reading and, having no exit, calls
    [cancel] again at the second. *)
Theorem late_download_cancellations :
  let clock := [61 # 10; 123 # 20]%Q in
  let stored :=
    Emulator.download_progress_monitor Scenario.emulator_cfg Scenario.emulator_env
      clock Scenario.downloading in
  let numeric :=
    Emulator.download_progress_monitor Scenario.emulator_cfg Scenario.emulator_env
      clock Scenario.downloading_numeric in
  (snd stored = Raised TypeError
   /\ cancel_calls (Emulator.trace (fst stored)) = O
   /\ Emulator.set_to_lowest_quaity (fst stored) = false
   /\ Emulator.task (fst stored) = Some TaskPending)
  /\ (snd numeric = Unfinished
      /\ cancel_calls (Emulator.trace (fst numeric)) = 2%nat
      /\ cancellations (Emulator.trace (fst numeric)) = 1%nat
      /\ Emulator.set_to_lowest_quaity (fst numeric) = true
      /\ Emulator.task (fst numeric) = Some TaskCancelled).
Proof. vm_compute. repeat split. Qed.

(** ** The emulator's pause on a full buffer *)

(** Whenever the guard of line 108 holds, the argument of the sleep of line
    109 is negative. *)
Lemma sleep_on_full_buffer_negative (cfg : Emulator.Config) (level : Q) :
  Qgtb level (Emulator.max_buffer cfg) = true ->
  (Emulator.max_buffer cfg - level < 0)%Q.
Proof.
  unfold Qgtb. intros H. apply negb_true_iff in H.
  assert (~ (level <= Emulator.max_buffer cfg)%Q) as N.
  { intros L. apply Qle_bool_iff in L. congruence. }
  apply Qnot_le_lt in N. lra.
Qed.

(** C9. With a buffer level of 10 seconds over a maximum of 8 the loop
    asks for a sleep of minus 2 seconds, which is over at once, and goes on
    to choose a representation and create the next download task. *)
Theorem full_buffer_does_not_pause :
  exists (d : Q) (rest : list Ev),
    Emulator.trace
      (fst (Emulator.start 5 Scenario.emulator_cfg Scenario.emulator_env
              (Emulator.init [Scenario.two_segments])))
    = EvSpawnSpeedFeed :: EvChoose 0 :: EvSleep d :: EvChoose 0
        :: EvCreateTask "seg0.m4s" :: rest
    /\ (d == -2)%Q.
Proof. eexists. eexists. split; [vm_compute; reflexivity | reflexivity]. Qed.

(** ** CanPlay *)


(** C5. With a 4-second [minBufferTime] and a single 2-second segment,
    CanPlay is published once that segment is complete, on a buffer of 2
    seconds: the level compared with the threshold is in milliseconds. *)
Theorem canplay_after_one_short_segment :
  trace Scenario.short_session
  = [EvTrigger MPDParseComplete; EvChoose 0; EvTrigger DownloadStart;
     EvCreateTask "init.mp4"; EvAwaited "init.mp4" (Done tt); EvInited 0;
     EvTrigger InitializationDownloadComplete;
     EvCreateTask "seg0.m4s"; EvAwaited "seg0.m4s" (Done tt);
     EvTrigger DownloadComplete; EvFeedSegment 2; EvChoose 0;
     EvTrigger DownloadStart; EvTrigger DownloadEnd;
     EvTrigger CanPlay; EvTrigger Play; EvSetStartTime;
     EvSpawn UpdateCurrentTime; EvSpawn CheckBufferSufficient]
  /\ (buffer Scenario.short_session - current_time (pm Scenario.short_session) == 2)%Q
  /\ (buffer_level Scenario.short_session == 2000)%Q
  /\ state (pm Scenario.short_session) = PLAYING.
Proof. vm_compute. repeat split. Qed.

(** ** The playback clock and the buffer level *)















(** ** What the two [init] methods register *)

(** DownloadStart is handled by [start_download] alone, DownloadComplete by
    [download_next] and then [check_canplay]; DownloadEnd and
    InitializationDownloadComplete have no subscriber. *)
Lemma registered_handlers (c : Config) (m : MPD) (reps : list Representation) :
  let w := DownloadManager_init c m (PlayManager_init c m (fresh reps)) in
  callbacks w !! DownloadStart = Some [start_download]
  /\ callbacks w !! DownloadComplete = Some [download_next; check_canplay]
  /\ callbacks w !! DownloadEnd = None
  /\ callbacks w !! InitializationDownloadComplete = None.
Proof.
  unfold DownloadManager_init, PlayManager_init.
  destruct (plot_arg c); vm_compute; repeat split.
Qed.

(** On ten 2-second segments, with handlers awaited in registration order,
    [check_canplay] runs only when [download_next] has returned, that is
    after the whole chain of downloads: CanPlay is published once, on a
    buffer of 20 seconds. *)
Lemma long_session_canplay :
  count_occ Events_eq_dec
    (omap (fun e => match e with EvTrigger ev => Some ev | _ => None end)
       (trace Scenario.long_session)) CanPlay = 1%nat
  /\ (buffer Scenario.long_session == 20)%Q
  /\ nth_error (trace Scenario.long_session) 67 = Some (EvTrigger DownloadEnd)
  /\ nth_error (trace Scenario.long_session) 68 = Some (EvTrigger CanPlay).
Proof. vm_compute. repeat split. Qed.

(** ** The download manager's handler of DownloadStart *)

Lemma bind_run {S A B : Type} (m : M S A) (k : A -> M S B) (s s' : S) (a : A) :
  m s = (s', Done a) -> bind m k s = k a s'.
Proof. intros H. unfold bind. rewrite H. reflexivity. Qed.










(** ** The theorems at concrete sessions *)



(** C10 on a process that has had no call yet. *)
Lemma constructors_are_idempotent_witness :
  well_formed boot
  /\ call PlayManagerClass (snd (call PlayManagerClass boot)) = call PlayManagerClass boot
  /\ Forall2 (fun d r => d = PlayManagerClass -> r = fst (call PlayManagerClass boot))
       Scenario.three_calls
       (fst (calls Scenario.three_calls (snd (call PlayManagerClass boot)))).
Proof.
  assert (well_formed boot) as W.
  { intros a [o H]. simpl in H. rewrite lookup_empty in H. discriminate. }
  destruct constructors_are_idempotent as (A & _ & C).
  split; [exact W|]. split; [apply A|].
  exact (proj1 (C Scenario.three_calls PlayManagerClass boot W)).
Defined.




(** ** What a run of [start] and a dispatch keep *)

Lemma same_but_inited_refl (r : Representation) : same_but_inited r r.
Proof. unfold same_but_inited. auto 10. Qed.

Lemma same_but_inited_trans (a b c : Representation) :
  same_but_inited a b -> same_but_inited b c -> same_but_inited a c.
Proof.
  unfold same_but_inited. intros (A1 & A2 & A3 & A4 & A5 & A6 & A7)
    (B1 & B2 & B3 & B4 & B5 & B6 & B7).
  repeat split; try congruence. auto.
Qed.

Lemma same_but_inited_set (r : Representation) : same_but_inited r (set_inited r).
Proof. unfold same_but_inited. simpl. auto 10. Qed.

Lemma manifest_kept_refl (l : list Representation) : manifest_kept l l.
Proof. induction l; constructor; [apply same_but_inited_refl | assumption]. Qed.

Lemma manifest_kept_trans (a b c : list Representation) :
  manifest_kept a b -> manifest_kept b c -> manifest_kept a c.
Proof.
  intros H. revert c. induction H as [|x y a b Hxy _ IH]; intros c Hc.
  - inversion Hc. constructor.
  - inversion Hc as [|y' z b' c' Hyz Hbc]; subst. constructor.
    + eapply same_but_inited_trans; eassumption.
    + apply IH, Hbc.
Qed.

Lemma manifest_kept_alter (l : list Representation) (k : nat) :
  manifest_kept l (alter set_inited k l).
Proof.
  revert k. induction l as [|r l IH]; intros k; [constructor|].
  destruct k as [|k].
  - change (manifest_kept (r :: l) (set_inited r :: l)).
    constructor; [apply same_but_inited_set | apply manifest_kept_refl].
  - change (manifest_kept (r :: l) (r :: alter set_inited k l)).
    constructor; [apply same_but_inited_refl | apply IH].
Qed.

Lemma emulator_kept_refl (e : Emulator.Emulator) : emulator_kept e e.
Proof. repeat split; [lia | apply manifest_kept_refl]. Qed.

Lemma emulator_kept_trans (a b c : Emulator.Emulator) :
  emulator_kept a b -> emulator_kept b c -> emulator_kept a c.
Proof.
  intros (A1 & A2 & A3) (B1 & B2 & B3). repeat split; [lia | | congruence].
  eapply manifest_kept_trans; eassumption.
Qed.

Lemma world_kept_refl (w : World) : world_kept w w.
Proof. unfold world_kept. repeat split; auto using manifest_kept_refl; lia. Qed.

Lemma world_kept_trans (a b c : World) :
  world_kept a b -> world_kept b c -> world_kept a c.
Proof.
  intros (A1 & A2 & A3 & A4 & A5 & A6 & A7 & A8 & A9 & A10)
    (B1 & B2 & B3 & B4 & B5 & B6 & B7 & B8 & B9 & B10).
  unfold world_kept. repeat split; try congruence; auto; try lia.
  eapply manifest_kept_trans; eassumption.
Qed.

Section Keeps.

Context {S : Type} (R : S -> S -> Prop).
Hypothesis R_refl : forall s, R s s.
Hypothesis R_trans : forall a b c, R a b -> R b c -> R a c.

Lemma keeps_ret {A : Type} (a : A) : keeps R (ret a).
Proof. intros s. apply R_refl. Qed.

Lemma keeps_raise {A : Type} (e : exn) : keeps R (raise (A := A) e).
Proof. intros s. apply R_refl. Qed.

Lemma keeps_lift {A : Type} (r : run A) : keeps R (lift r).
Proof. intros s. apply R_refl. Qed.

Lemma keeps_gets {A : Type} (f : S -> A) : keeps R (gets f).
Proof. intros s. apply R_refl. Qed.

Lemma keeps_some_or {A : Type} (e : exn) (o : option A) : keeps R (some_or e o).
Proof. destruct o; [apply keeps_ret | apply keeps_raise]. Qed.

Lemma keeps_modify (f : S -> S) : (forall s, R s (f s)) -> keeps R (modify f).
Proof. intros H s. apply H. Qed.

Lemma keeps_bind {A B : Type} (m : M S A) (k : A -> M S B) :
  keeps R m -> (forall a, keeps R (k a)) -> keeps R (bind m k).
Proof.
  intros Hm Hk s. unfold bind. specialize (Hm s).
  destruct (m s) as [s1 [a|x|]]; simpl in *; try exact Hm.
  eapply R_trans; [exact Hm | apply Hk].
Qed.

Lemma keeps_when (b : bool) (m : M S unit) : keeps R m -> keeps R (when b m).
Proof. destruct b; [auto | intros _; apply keeps_ret]. Qed.

End Keeps.

Ltac kept_solve :=
  intros; unfold emulator_kept, world_kept; simpl;
  repeat split;
  first [ lia | apply manifest_kept_refl | apply manifest_kept_alter
        | reflexivity | solve [intros; congruence] | solve [auto] ].

Ltac keeps_step R_refl R_trans :=
  first
    [ match goal with H : _ |- _ => apply H end
    | apply (keeps_bind _ R_trans); [|intros ?]
    | apply (keeps_ret _ R_refl)
    | apply (keeps_raise _ R_refl)
    | apply (keeps_gets _ R_refl)
    | apply (keeps_lift _ R_refl)
    | apply (keeps_some_or _ R_refl)
    | apply keeps_when
    | apply keeps_modify; kept_solve
    | match goal with
      | |- keeps _ (if ?b then _ else _) => destruct b
      | |- keeps _ (match ?o with Some _ => _ | None => _ end) => destruct o
      end ].

Ltac emulator_keeps := repeat keeps_step emulator_kept_refl emulator_kept_trans.
Ltac world_keeps := repeat keeps_step world_kept_refl world_kept_trans.

Lemma emulator_read_chunks_grows (rs : list (run bytes)) (counter : Z) :
  counter <= fst (Emulator.read_chunks rs counter).
Proof.
  revert counter. induction rs as [|[chunk|x|] rs IH]; intros counter; simpl; try lia.
  destruct (len chunk =? 0); simpl; [lia|].
  specialize (IH (counter + len chunk)). unfold len in *. lia.
Qed.

Lemma manager_read_chunks_grows (rs : list (run bytes)) (counter : Z) :
  counter <= fst (Managers.read_chunks rs counter).
Proof.
  revert counter. induction rs as [|[chunk|x|] rs IH]; intros counter; simpl; try lia.
  destruct (len chunk =? 0); simpl; [lia|].
  specialize (IH (counter + len chunk * 8)). unfold len in *. lia.
Qed.

Lemma emulator_keeps_emit (ev : Ev) : keeps emulator_kept (Emulator.emit ev).
Proof. unfold Emulator.emit. emulator_keeps. Qed.

Lemma emulator_keeps_download_segment (resp : Response) :
  keeps emulator_kept (Emulator.download_segment resp).
Proof.
  unfold Emulator.download_segment. emulator_keeps.
  intros e. pose proof (emulator_read_chunks_grows (reads resp) (Emulator.data_downloaded e)).
  destruct (Emulator.read_chunks _ _). kept_solve.
Qed.

Lemma emulator_keeps_download (env : Emulator.Env) (url : string) :
  keeps emulator_kept (Emulator.download env url).
Proof.
  pose proof emulator_keeps_emit.
  unfold Emulator.download. emulator_keeps.
  intros e.
  match goal with
  | |- context [Emulator.download_segment ?r ?x] =>
      pose proof (emulator_keeps_download_segment r x) as K;
      destruct (Emulator.download_segment r x) as [e' [[]|x'|]]
  end; simpl in K; try destruct x'; simpl;
    destruct K as (K1 & K2 & K3); repeat split; assumption.
Qed.

Lemma emulator_keeps_start_loop (fuel : nat) (cfg : Emulator.Config)
    (env : Emulator.Env) (ind : Z) (rep : Representation) :
  keeps emulator_kept (Emulator.start_loop fuel cfg env ind rep).
Proof.
  revert ind rep.
  induction fuel as [|fuel IH]; intros ind rep; simpl; [apply keeps_lift, emulator_kept_refl|].
  pose proof emulator_keeps_emit. pose proof emulator_keeps_download.
  unfold Emulator.abr_choose, Emulator.mark_inited. emulator_keeps.
Qed.

Lemma emulator_keeps_start (fuel : nat) (cfg : Emulator.Config) (env : Emulator.Env) :
  keeps emulator_kept (Emulator.start fuel cfg env).
Proof.
  pose proof emulator_keeps_emit. pose proof emulator_keeps_start_loop.
  unfold Emulator.start, Emulator.abr_choose. emulator_keeps.
Qed.

Lemma world_keeps_emit (ev : Ev) : keeps world_kept (emit ev).
Proof. unfold emit. world_keeps. Qed.

Lemma world_keeps_download (resp : Response) : keeps world_kept (download resp).
Proof.
  unfold download. world_keeps.
  intros w. pose proof (manager_read_chunks_grows (reads resp) (downloaded w)).
  destruct (Managers.read_chunks _ _). kept_solve.
Qed.

Lemma world_keeps_fetch (env : Env) (url : string) : keeps world_kept (fetch env url).
Proof.
  pose proof world_keeps_emit.
  unfold fetch. world_keeps.
  intros w.
  match goal with
  | |- context [download ?r ?x] =>
      pose proof (world_keeps_download r x) as K;
      destruct (download r x) as [w' [[]|x'|]]
  end; simpl in K |- *; exact K.
Qed.

Lemma world_keeps_publish (trig : Events -> M World unit) (event : Events) :
  (forall ev, keeps world_kept (trig ev)) -> keeps world_kept (publish trig event).
Proof. intros H. pose proof world_keeps_emit. unfold publish. world_keeps. Qed.

Lemma world_keeps_stall_wait (fuel : nat) : keeps world_kept (stall_wait fuel).
Proof.
  pose proof world_keeps_emit.
  induction fuel as [|fuel IH]; simpl; [apply keeps_lift, world_kept_refl|]. world_keeps.
Qed.

Lemma world_keeps_handle (env : Env) (fuel : nat) (trig : Events -> M World unit)
    (h : Handler) :
  (forall ev, keeps world_kept (trig ev)) -> keeps world_kept (handle env fuel trig h).
Proof.
  intros H.
  pose proof (fun ev => world_keeps_publish trig ev H).
  pose proof world_keeps_emit. pose proof world_keeps_fetch.
  pose proof world_keeps_stall_wait.
  destruct h;
    unfold handle, save_statistical_data, feed_segment, mark_inited,
      current_representation, abr_choose, point_at;
    world_keeps.
Qed.

Lemma world_keeps_run_all (run1 : Handler -> M World unit) (hs : list Handler) :
  (forall h, keeps world_kept (run1 h)) -> keeps world_kept (run_all run1 hs).
Proof. intros H. induction hs as [|h hs IH]; simpl; world_keeps. Qed.

Lemma world_keeps_trigger (fuel : nat) (env : Env) (event : Events) :
  keeps world_kept (trigger fuel env event).
Proof.
  revert event.
  induction fuel as [|fuel IH]; intros event; simpl; [apply keeps_lift, world_kept_refl|].
  apply (keeps_bind _ world_kept_trans); [apply keeps_gets, world_kept_refl|].
  intros hs. apply world_keeps_run_all. intros h. apply world_keeps_handle, IH.
Qed.

Lemma world_keeps_check_buffer_sufficient (fuel : nat) (env : Env) :
  keeps world_kept (check_buffer_sufficient fuel env).
Proof.
  pose proof world_keeps_emit.
  pose proof (fun ev => world_keeps_publish (trigger fuel env) ev
                          (world_keeps_trigger fuel env)).
  unfold check_buffer_sufficient. world_keeps.
Qed.

(** X1. The downloaded-data counters never go down: neither
    [data_downloaded] over a run of [Emulator.start], nor the speed
    monitor's [downloaded] over the dispatch of any event, however the run
    ends (returned, raised, or still running). *)
Theorem counters_never_decrease :
  (forall (fuel : nat) (cfg : Emulator.Config) (env : Emulator.Env)
          (e : Emulator.Emulator),
      Emulator.data_downloaded e
      <= Emulator.data_downloaded (fst (Emulator.start fuel cfg env e)))
  /\ (forall (fuel : nat) (env : Env) (event : Events) (w : World),
        downloaded w <= downloaded (fst (publish (trigger fuel env) event w))).
Proof.
  split.
  - intros fuel cfg env e. apply (emulator_keeps_start fuel cfg env e).
  - intros fuel env event w.
    apply (world_keeps_publish _ event (world_keeps_trigger fuel env) w).
Qed.

(** X2. A run of [Emulator.start] and the dispatch of any event leave
    the manifest as it was, except that [is_inited] of a representation may
    have been set: no representation is added or dropped, ids, bandwidths,
    URLs, durations, start numbers and initialisation URLs are unchanged,
    and a flag that was set stays set. *)
Theorem manifest_only_gains_flags :
  (forall (fuel : nat) (cfg : Emulator.Config) (env : Emulator.Env)
          (e : Emulator.Emulator),
      manifest_kept (Emulator.representations e)
        (Emulator.representations (fst (Emulator.start fuel cfg env e))))
  /\ (forall (fuel : nat) (env : Env) (event : Events) (w : World),
        manifest_kept (representations w)
          (representations (fst (publish (trigger fuel env) event w)))).
Proof.
  split.
  - intros fuel cfg env e. apply (emulator_keeps_start fuel cfg env e).
  - intros fuel env event w.
    apply (world_keeps_publish _ event (world_keeps_trigger fuel env) w).
Qed.

(** X3. A run of [Emulator.start] leaves [set_to_lowest_quaity] as it
    found it: the loop never writes the flag the progress monitor sets. *)
Theorem start_leaves_degrade_flag (fuel : nat) (cfg : Emulator.Config)
    (env : Emulator.Env) (e : Emulator.Emulator) :
  Emulator.set_to_lowest_quaity (fst (Emulator.start fuel cfg env e))
  = Emulator.set_to_lowest_quaity e.
Proof. apply (emulator_keeps_start fuel cfg env e). Qed.

(** X4. The dispatch of an event registers and removes no handler, leaves
    the configuration and the manifest's scalars of both managers as they
    were, and does not move the playback clock. *)
Theorem dispatch_leaves_setup_and_clock (fuel : nat) (env : Env) (event : Events)
    (w : World) :
  let w' := fst (publish (trigger fuel env) event w) in
  callbacks w' = callbacks w
  /\ cfg (pm w') = cfg (pm w) /\ mpd (pm w') = mpd (pm w)
  /\ dm_cfg (dm w') = dm_cfg (dm w) /\ dm_mpd (dm w') = dm_mpd (dm w)
  /\ current_time (pm w') = current_time (pm w).
Proof.
  destruct (world_keeps_publish _ event (world_keeps_trigger fuel env) w)
    as (_ & _ & K3 & K4 & K5 & K6 & K7 & K8 & _).
  simpl. auto 10.
Qed.

Lemma update_current_time_state (w : World) :
  state (pm (fst (update_current_time w))) = state (pm w).
Proof.
  unfold update_current_time, bind, gets, some_or, modify, ret, raise.
  destruct (cfg (pm w)); reflexivity.
Qed.

Lemma session_starts_ready (c : Config) (m : MPD) (reps : list Representation) :
  state (pm (DownloadManager_init c m (PlayManager_init c m (fresh reps)))) = READY.
Proof. unfold DownloadManager_init, PlayManager_init. destruct (plot_arg c); reflexivity. Qed.

(** X5. No state of a session has the player STOPPED: the state is
    assigned by [play] and [stall] alone, which switch to PLAYING and
    STALLING. *)
Theorem player_never_stopped (w : World) :
  reachable w -> state (pm w) <> STOPPED.
Proof.
  induction 1 as [fuel env c m reps | fuel env w w' _ IH Hstep].
  - unfold session.
    destruct (world_keeps_publish _ MPDParseComplete (world_keeps_trigger fuel env)
                (DownloadManager_init c m (PlayManager_init c m (fresh reps))))
      as (_ & _ & _ & _ & _ & _ & _ & _ & _ & K).
    apply K. rewrite session_starts_ready. discriminate.
  - destruct Hstep as [w t _ _ | w t _ _].
    + rewrite update_current_time_state. exact IH.
    + destruct (world_keeps_check_buffer_sufficient fuel env (set_now t w))
        as (_ & _ & _ & _ & _ & _ & _ & _ & _ & K).
      apply K. exact IH.
Qed.

(** ** How a download ends *)





(** ** switch_state *)


(** ** The progress monitor's patience *)

Lemma cancel_calls_app (a b : list Ev) :
  cancel_calls (a ++ b) = (cancel_calls a + cancel_calls b)%nat.
Proof.
  induction a as [|ev a IH]; simpl; [reflexivity|].
  destruct ev; simpl; rewrite IH; reflexivity.
Qed.

Lemma download_untouched_refl (e : Emulator.Emulator) : download_untouched e e.
Proof. repeat split. Qed.

Lemma download_untouched_trans (a b c : Emulator.Emulator) :
  download_untouched a b -> download_untouched b c -> download_untouched a c.
Proof. intros (A1 & A2 & A3) (B1 & B2 & B3). repeat split; congruence. Qed.

Lemma flag_stays_refl (e : Emulator.Emulator) : flag_stays e e.
Proof. intros H. exact H. Qed.

Lemma flag_stays_trans (a b c : Emulator.Emulator) :
  flag_stays a b -> flag_stays b c -> flag_stays a c.
Proof. unfold flag_stays. auto. Qed.

Lemma untouched_emit_sleep (d : Q) :
  keeps download_untouched (Emulator.emit (EvSleep d)).
Proof.
  intros e. unfold download_untouched, Emulator.emit, modify.
  cbn [fst Emulator.task Emulator.set_to_lowest_quaity Emulator.trace Emulator.set_trace].
  split; [reflexivity|]. split; [reflexivity|].
  rewrite cancel_calls_app. simpl. lia.
Qed.

Ltac untouched_keeps :=
  repeat keeps_step download_untouched_refl download_untouched_trans.

Lemma poll_within_allowance (cfg : Emulator.Config) (deadline elapsed : Q) :
  (elapsed <= deadline * Emulator.timeout_max_ratio cfg)%Q ->
  keeps download_untouched (Emulator.poll cfg deadline elapsed).
Proof.
  intros H. unfold Emulator.poll.
  assert (Qgtb elapsed (deadline * Emulator.timeout_max_ratio cfg) = false) as G.
  { unfold Qgtb. apply negb_false_iff, Qle_bool_iff, H. }
  rewrite G. pose proof untouched_emit_sleep. untouched_keeps.
Qed.

Lemma poll_loop_within_allowance (cfg : Emulator.Config) (deadline : Q) (clock : list Q) :
  within_allowance cfg deadline clock ->
  keeps download_untouched (Emulator.poll_loop cfg deadline clock).
Proof.
  induction 1 as [|elapsed clock H _ IH]; simpl.
  - apply keeps_lift, download_untouched_refl.
  - apply (keeps_bind _ download_untouched_trans);
      [apply poll_within_allowance, H | intros _; exact IH].
Qed.

(** X9. While every reading of the clock is within the deadline times
    [timeout_max_ratio], the progress monitor leaves the download alone: the
    task, the forced-degrade flag and the number of calls of [cancel] are as
    they were, whatever the counters read. *)
Theorem monitor_spares_download_within_allowance
    (cfg : Emulator.Config) (env : Emulator.Env) (clock : list Q)
    (e : Emulator.Emulator) :
  (forall (v : value) (deadline : Q),
     Emulator.timeout (Emulator.get_speed env) e = Done v ->
     Emulator.seconds v = Done deadline ->
     within_allowance cfg deadline clock) ->
  download_untouched e (fst (Emulator.download_progress_monitor cfg env clock e)).
Proof.
  intros H. unfold Emulator.download_progress_monitor.
  unfold bind at 1.
  destruct (Emulator.timeout (Emulator.get_speed env) e) as [v|x|] eqn:T;
    try apply download_untouched_refl.
  unfold bind at 1, lift at 1.
  destruct (Emulator.seconds v) as [deadline|x|] eqn:S;
    try apply download_untouched_refl.
  specialize (H v deadline eq_refl S).
  pose proof untouched_emit_sleep.
  pose proof (poll_loop_within_allowance cfg deadline clock H).
  apply (keeps_bind _ download_untouched_trans); [auto | intros _; auto].
Qed.

Lemma flag_stays_emit (ev : Ev) : keeps flag_stays (Emulator.emit ev).
Proof. intros e H. exact H. Qed.

Ltac flag_keeps :=
  repeat (first [ apply keeps_modify; intros ? ?; simpl; solve [auto]
                | keeps_step flag_stays_refl flag_stays_trans ]).

Lemma flag_stays_poll (cfg : Emulator.Config) (deadline elapsed : Q) :
  keeps flag_stays (Emulator.poll cfg deadline elapsed).
Proof.
  pose proof flag_stays_emit. unfold Emulator.poll. flag_keeps.
Qed.

(** X10. The progress monitor never clears [set_to_lowest_quaity]: a
    flag that is set when the monitor starts is set whenever and however
    the monitor is left. *)
Theorem monitor_never_clears_flag
    (cfg : Emulator.Config) (env : Emulator.Env) (clock : list Q)
    (e : Emulator.Emulator) :
  Emulator.set_to_lowest_quaity e = true ->
  Emulator.set_to_lowest_quaity
    (fst (Emulator.download_progress_monitor cfg env clock e)) = true.
Proof.
  assert (forall deadline, keeps flag_stays (Emulator.poll_loop cfg deadline clock)) as L.
  { intros deadline. induction clock as [|elapsed clock IH]; simpl.
    - apply keeps_lift, flag_stays_refl.
    - apply (keeps_bind _ flag_stays_trans); [apply flag_stays_poll | intros _; exact IH]. }
  pose proof flag_stays_emit.
  assert (keeps flag_stays (Emulator.download_progress_monitor cfg env clock)) as K.
  { unfold Emulator.download_progress_monitor. flag_keeps. }
  apply K.
Qed.

(** X11. A turn of the monitor past the allowance while [self.task] is
    [None] sets the flag and then raises AttributeError on
    [self.task.cancel()]: the flag stays set although nothing was
    cancelled. *)
Theorem monitor_without_task (cfg : Emulator.Config) (deadline elapsed : Q)
    (e : Emulator.Emulator) :
  Emulator.task e = None ->
  (deadline * Emulator.timeout_max_ratio cfg < elapsed)%Q ->
  Emulator.poll cfg deadline elapsed e
  = (Emulator.set_trace (Emulator.trace e ++ [EvSetLowest]) (Emulator.set_lowest true e),
     Raised AttributeError).
Proof.
  intros Ht Hl. unfold Emulator.poll.
  assert (Qgtb elapsed (deadline * Emulator.timeout_max_ratio cfg) = true) as G.
  { unfold Qgtb. apply negb_true_iff. destruct (Qle_bool _ _) eqn:E; [|reflexivity].
    apply Qle_bool_iff in E. lra. }
  rewrite G. unfold bind, modify, Emulator.emit, gets, some_or, raise. simpl.
  rewrite Ht. reflexivity.
Qed.

(** ** A whole run of the emulator's loop *)

Lemma created_app (a b : list Ev) : created (a ++ b) = created a ++ created b.
Proof.
  induction a as [|ev a IH]; simpl; [reflexivity|].
  destruct ev; simpl; rewrite IH; reflexivity.
Qed.

Lemma fed_app (a b : list Ev) : fed (a ++ b) = fed a ++ fed b.
Proof.
  induction a as [|ev a IH]; simpl; [reflexivity|].
  destruct ev; simpl; rewrite IH; reflexivity.
Qed.

Lemma nth_error_lookup {A : Type} (l : list A) (n : nat) : nth_error l n = l !! n.
Proof. revert n. induction l as [|x l IH]; intros [|n]; simpl; auto. Qed.

Lemma getitem_in_range {A : Type} (l : list A) (i : Z) :
  0 <= i < len l -> getitem l i = l !! Z.to_nat i.
Proof.
  intros [H0 H1]. unfold getitem, place.
  apply Z.leb_le in H0. apply Z.ltb_lt in H1. rewrite H0, H1. simpl.
  apply nth_error_lookup.
Qed.

Lemma emulator_download_done (env : Emulator.Env) (url : string) (e : Emulator.Emulator) :
  reads_to_end (Emulator.get env (Emulator.requested e) url) ->
  exists e', Emulator.download env url e = (e', Done tt)
    /\ Emulator.trace e' = Emulator.trace e ++ [EvCreateTask url; EvAwaited url (Done tt)]
    /\ Emulator.representations e' = Emulator.representations e.
Proof.
  intros [Hh Hr].
  destruct (content_length (Emulator.get env (Emulator.requested e) url)) as [h|] eqn:E;
    [|congruence].
  unfold Emulator.download, Emulator.emit. unfold bind at 1, modify at 1.
  unfold bind at 1, modify at 1. unfold bind at 1, gets at 1.
  unfold bind at 1, modify at 1.
  cbn [Emulator.requested Emulator.set_task Emulator.set_trace].
  unfold Emulator.download_segment, bind, some_or, modify, ret. rewrite E.
  cbn [Emulator.data_downloaded Emulator.set_before_this_segment
       Emulator.set_segment_content_length Emulator.set_counts].
  match goal with
  | |- context [Emulator.read_chunks ?r ?x] =>
      specialize (Hr x); destruct (Emulator.read_chunks r x) as [counter how]
  end.
  simpl in Hr. subst how. eexists. split; [reflexivity|]. simpl.
  rewrite <- app_assoc. split; reflexivity.
Qed.

Lemma emulator_abr_choose_at (env : Emulator.Env) (e : Emulator.Emulator) (r : nat)
    (rep : Representation) :
  Emulator.choose env (Emulator.chosen e) = r ->
  Emulator.representations e !! r = Some rep ->
  exists e', Emulator.abr_choose env e = (e', Done (r, rep))
    /\ Emulator.trace e' = Emulator.trace e ++ [EvChoose (Z.of_nat r)]
    /\ Emulator.representations e' = Emulator.representations e.
Proof.
  intros Hc Hr. unfold Emulator.abr_choose, Emulator.emit, bind, gets, modify, some_or, ret.
  simpl. rewrite Hc, Hr. eexists. split; [reflexivity|]. split; reflexivity.
Qed.

Lemma emulator_mark_inited_at (r : nat) (e : Emulator.Emulator) :
  exists e', Emulator.mark_inited r e = (e', Done tt)
    /\ created (Emulator.trace e') = created (Emulator.trace e)
    /\ fed (Emulator.trace e') = fed (Emulator.trace e)
    /\ Emulator.representations e' = alter set_inited r (Emulator.representations e).
Proof.
  unfold Emulator.mark_inited, Emulator.emit, bind, modify. eexists.
  split; [reflexivity|]. simpl. rewrite created_app, fed_app. simpl.
  rewrite !app_nil_r. auto.
Qed.


Lemma emulator_pause (b : bool) (d : Q) (e : Emulator.Emulator) :
  exists e', when b (Emulator.emit (EvSleep d)) e = (e', Done tt)
    /\ created (Emulator.trace e') = created (Emulator.trace e)
    /\ fed (Emulator.trace e') = fed (Emulator.trace e)
    /\ Emulator.representations e' = Emulator.representations e.
Proof.
  destruct b; simpl; eexists; (split; [reflexivity|]); simpl;
    rewrite ?created_app, ?fed_app; simpl; rewrite ?app_nil_r; auto.
Qed.

Lemma emulator_stamp (b : bool) (e : Emulator.Emulator) :
  exists e', when b (Emulator.emit EvSetStartTime) e = (e', Done tt)
    /\ created (Emulator.trace e') = created (Emulator.trace e)
    /\ fed (Emulator.trace e') = fed (Emulator.trace e)
    /\ Emulator.representations e' = Emulator.representations e.
Proof.
  destruct b; simpl; eexists; (split; [reflexivity|]); simpl;
    rewrite ?created_app, ?fed_app; simpl; rewrite ?app_nil_r; auto.
Qed.

(** The initialisation segment is fetched when the flag is unset, and the
    flag is set on the shared object. *)
Lemma emulator_initialise (env : Emulator.Env) (r : nat) (rep : Representation)
    (e : Emulator.Emulator) :
  (forall k url, reads_to_end (Emulator.get env k url)) ->
  Emulator.representations e !! r = Some rep ->
  exists e',
    when (negb (is_inited rep))
      (bind (Emulator.download env (initialization rep))
         (fun _ => Emulator.mark_inited r)) e
    = (e', Done tt)
    /\ created (Emulator.trace e')
       = created (Emulator.trace e)
         ++ (if is_inited rep then [] else [initialization rep])
    /\ fed (Emulator.trace e') = fed (Emulator.trace e)
    /\ exists rep', Emulator.representations e' !! r = Some rep'
         /\ same_but_inited rep rep' /\ is_inited rep' = true.
Proof.
  intros Hget Hr. destruct (is_inited rep) eqn:I; simpl.
  - exists e. rewrite app_nil_r. repeat split.
    exists rep. repeat split; auto.
  - destruct (emulator_download_done env (initialization rep) e (Hget _ _))
      as (e1 & D & T1 & R1).
    destruct (emulator_mark_inited_at r e1) as (e2 & Mk & C2 & F2 & R2).
    exists e2. rewrite (bind_run _ _ _ _ _ D). split; [exact Mk|].
    rewrite C2, F2, T1, created_app, fed_app. simpl. rewrite app_nil_r.
    repeat split.
    exists (set_inited rep). rewrite R2, R1, list_lookup_alter_eq, Hr.
    split; [reflexivity|]. split; [apply same_but_inited_set | reflexivity].
Qed.

Lemma start_loop_run (cfg : Emulator.Config) (env : Emulator.Env) (r : nat) :
  (forall k, Emulator.choose env k = r) ->
  (forall k url, reads_to_end (Emulator.get env k url)) ->
  forall (n fuel : nat) (ind : Z) (guard rep : Representation) (e : Emulator.Emulator),
    Emulator.representations e !! r = Some rep ->
    urls guard = urls rep ->
    0 <= ind -> Z.to_nat (len (urls rep) - ind) = n -> (n < fuel)%nat ->
    len (urls rep) <= len (durations rep) ->
    exists e',
      Emulator.start_loop fuel cfg env ind guard e = (e', Done tt)
      /\ created (Emulator.trace e')
         = created (Emulator.trace e)
           ++ (if (ind <? len (urls rep)) && negb (is_inited rep)
               then [initialization rep] else [])
           ++ drop (Z.to_nat ind) (urls rep)
      /\ fed (Emulator.trace e')
         = fed (Emulator.trace e) ++ take n (drop (Z.to_nat ind) (durations rep)).
Proof.
  intros Hchoose Hget.
  induction n as [|n IH]; intros fuel ind guard rep e Hr Hu H0 Hn Hf Hd;
    (destruct fuel as [|fuel]; [lia|]); cbn [Emulator.start_loop]; rewrite Hu.
  - assert ((ind <? len (urls rep)) = false) as G by (apply Z.ltb_ge; lia).
    rewrite G. exists e. split; [reflexivity|]. simpl.
    rewrite drop_ge by (unfold len in *; lia). rewrite !app_nil_r. auto.
  - assert (ind < len (urls rep)) as Hlt by lia.
    assert ((ind <? len (urls rep)) = true) as G by (apply Z.ltb_lt; lia).
    rewrite G.
    rewrite (bind_run (gets Emulator.turns) _ e e _ eq_refl).
    rewrite (bind_run (modify _) _ _ _ tt eq_refl).
    match goal with |- context [bind (when ?b (Emulator.emit (EvSleep ?d))) _ ?x] =>
      destruct (emulator_pause b d x) as (e1 & P1 & C1 & F1 & R1) end.
    rewrite (bind_run _ _ _ _ _ P1).
    assert (Emulator.representations e1 !! r = Some rep) as Hr1 by (rewrite R1; exact Hr).
    destruct (emulator_abr_choose_at env e1 r rep (Hchoose _) Hr1)
      as (e2 & A2 & T2 & R2).
    rewrite (bind_run _ _ _ _ _ A2). cbn [fst snd].
    assert (Emulator.representations e2 !! r = Some rep) as Hr2 by (rewrite R2; exact Hr1).
    destruct (emulator_initialise env r rep e2 Hget Hr2)
      as (e3 & I3 & C3 & F3 & rep' & Hr3 & S3 & In3).
    rewrite (bind_run _ _ _ _ _ I3).
    assert (exists u, urls rep !! Z.to_nat ind = Some u) as [u Hu'].
    { apply lookup_lt_is_Some_2. unfold len in *. lia. }
    assert (exists d, durations rep !! Z.to_nat ind = Some d) as [d Hd'].
    { apply lookup_lt_is_Some_2. unfold len in *. lia. }
    rewrite (getitem_in_range (urls rep) ind) by lia. rewrite Hu'.
    rewrite (bind_run (some_or IndexError (Some u)) _ _ _ u eq_refl).
    destruct (emulator_download_done env u e3 (Hget _ _)) as (e4 & D4 & T4 & R4).
    rewrite (bind_run _ _ _ _ _ D4).
    match goal with |- context [bind (when ?b (Emulator.emit EvSetStartTime)) _ ?x] =>
      destruct (emulator_stamp b x) as (e5 & P5 & C5 & F5 & R5) end.
    rewrite (bind_run _ _ _ _ _ P5).
    rewrite (getitem_in_range (durations rep) ind) by lia. rewrite Hd'.
    rewrite (bind_run (some_or IndexError (Some d)) _ _ _ d eq_refl).
    rewrite (bind_run (Emulator.emit (EvFeedSegment d)) _ _ _ tt eq_refl).
    destruct S3 as (_ & _ & Su & Sd & _ & _ & _).
    match goal with |- context [Emulator.start_loop fuel cfg env (ind + 1) rep ?x] =>
      destruct (IH fuel (ind + 1) rep rep' x) as (e' & L & C' & F')
    end.
    + cbn. rewrite R5, R4. exact Hr3.
    + congruence.
    + lia.
    + rewrite Su. lia.
    + lia.
    + rewrite Su, Sd. exact Hd.
    + exists e'. split; [exact L|]. rewrite C', F'. cbn.
      rewrite In3, andb_false_r, Su, Sd. cbn.
      rewrite !created_app, !fed_app, C5, F5, T4, created_app, fed_app, C3, F3, T2,
        created_app, fed_app, C1, F1. cbn. rewrite !app_nil_r.
      replace (Z.to_nat (ind + 1)) with (S (Z.to_nat ind)) by lia.
      rewrite (drop_S _ _ _ Hu'), (drop_S _ _ _ Hd'). cbn.
      rewrite <- !app_assoc. cbn. split; [|reflexivity].
      destruct (is_inited rep); reflexivity.
Qed.

(** X12. With a controller that keeps choosing one representation, at
    least as many durations as URLs and responses that are read to their
    end, [Emulator.start] returns, having created the download tasks of the
    initialisation segment (if the flag was unset and a segment is left)
    and of every segment from [startNumber] on, in order, and having fed
    the duration of each of these segments, in order. *)
Theorem start_fetches_every_segment
    (fuel : nat) (cfg : Emulator.Config) (env : Emulator.Env) (r : nat)
    (rep : Representation) (e : Emulator.Emulator) :
  (forall k, Emulator.choose env k = r) ->
  (forall k url, reads_to_end (Emulator.get env k url)) ->
  Emulator.representations e !! r = Some rep ->
  0 <= startNumber rep ->
  len (urls rep) <= len (durations rep) ->
  (Z.to_nat (len (urls rep) - startNumber rep) < fuel)%nat ->
  let first := Z.to_nat (startNumber rep) in
  let e' := fst (Emulator.start fuel cfg env e) in
  snd (Emulator.start fuel cfg env e) = Done tt
  /\ created (Emulator.trace e')
     = created (Emulator.trace e)
       ++ (if (startNumber rep <? len (urls rep)) && negb (is_inited rep)
           then [initialization rep] else [])
       ++ drop first (urls rep)
  /\ fed (Emulator.trace e')
     = fed (Emulator.trace e)
       ++ take (Z.to_nat (len (urls rep) - startNumber rep)) (drop first (durations rep)).
Proof.
  intros Hchoose Hget Hr H0 Hd Hf first e'. subst first e'.
  unfold Emulator.start.
  rewrite (bind_run (Emulator.emit EvSpawnSpeedFeed) _ _ _ tt eq_refl).
  match goal with |- context [bind (Emulator.abr_choose env) _ ?x] =>
    destruct (emulator_abr_choose_at env x r rep (Hchoose _) Hr) as (e2 & A2 & T2 & R2)
  end.
  rewrite (bind_run _ _ _ _ _ A2). cbn [fst snd].
  assert (Emulator.representations e2 !! r = Some rep) as Hr2 by (rewrite R2; exact Hr).
  destruct (start_loop_run cfg env r Hchoose Hget _ fuel (startNumber rep) rep rep e2
              Hr2 eq_refl H0 eq_refl Hf Hd) as (e3 & L & C3 & F3).
  rewrite (bind_run _ _ _ _ _ L).
  unfold Emulator.emit, modify. cbn [fst snd Emulator.trace Emulator.set_trace].
  split; [reflexivity|].
  rewrite created_app, fed_app, C3, F3, T2. cbn [Emulator.trace Emulator.set_trace].
  rewrite !created_app, !fed_app. cbn. rewrite !app_nil_r. split; reflexivity.
Qed.

(** ** What the handlers of the play manager do *)

(** X13. [download_next] on a download manager at segment [i] of a
    representation with a duration for it: the speed is recorded under [i],
    the duration is added to the buffer, the controller is asked once and
    the download manager pointed at its choice, the index becomes [i + 1],
    and DownloadStart is published from that state; the bit counter and the
    player's state are untouched. *)
Theorem download_next_contract (env : Env) (fuel : nat) (trig : Events -> M World unit)
    (w : World) (k k' : nat) (rep : Representation) (i : Z) (d : Q) (m : MPD) :
  representation (dm w) = Some k -> representations w !! k = Some rep ->
  video_ind (dm w) = Some i -> getitem (durations rep) i = Some d ->
  abr_controller (pm w) = true -> mpd (pm w) = Some m ->
  place (representations w) (choose env (chosen w)) = Some k' ->
  exists w' : World,
    handle env fuel trig download_next w = publish trig DownloadStart w'
    /\ buffer w' = (buffer w + d)%Q
    /\ video_ind (dm w') = Some (i + 1)
    /\ representation (dm w') = Some k'
    /\ current_video_representation_ind (pm w') = choose env (chosen w)
    /\ bandwidth_segmentwise (pm w')
       = <[Some i := get_speed env (measured w)]> (bandwidth_segmentwise (pm w))
    /\ trace w' = trace w ++ [EvFeedSegment d; EvChoose (choose env (chosen w))]
    /\ downloaded w' = downloaded w
    /\ state (pm w') = state (pm w).
Proof.
  intros H1 H2 H3 H4 H5 H6 H7.
  unfold handle, save_statistical_data, current_representation, feed_segment,
    abr_choose, point_at, emit.
  unfold bind, gets, modify, some_or, ret, raise.
  cbn -[getitem place publish]. rewrite H1. cbn -[getitem place publish]. rewrite H2.
  cbn -[getitem place publish]. rewrite H3. cbn -[getitem place publish]. rewrite H4.
  cbn -[getitem place publish]. rewrite H5. cbn -[getitem place publish]. rewrite H6.
  cbn -[getitem place publish]. rewrite H7. cbn -[getitem place publish]. rewrite H3.
  cbn -[getitem place publish].
  eexists. split; [reflexivity|]. cbn. rewrite <- app_assoc.
  repeat split; reflexivity.
Qed.

(** X14. [download_next] at an index without a duration raises
    IndexError: nothing is fed or published and the index stays, but the
    speed has already been recorded under that index. *)
Theorem download_next_past_durations (env : Env) (fuel : nat)
    (trig : Events -> M World unit) (w : World) (k : nat) (rep : Representation) (i : Z) :
  representation (dm w) = Some k -> representations w !! k = Some rep ->
  video_ind (dm w) = Some i -> getitem (durations rep) i = None ->
  let w' := fst (handle env fuel trig download_next w) in
  snd (handle env fuel trig download_next w) = Raised IndexError
  /\ buffer w' = buffer w
  /\ video_ind (dm w') = Some i
  /\ trace w' = trace w
  /\ bandwidth_segmentwise (pm w') !! Some i = Some (get_speed env (measured w)).
Proof.
  intros H1 H2 H3 H4 w'. subst w'.
  unfold handle, save_statistical_data, current_representation, feed_segment,
    abr_choose, point_at, emit.
  unfold bind, gets, modify, some_or, ret, raise.
  cbn -[getitem place publish]. rewrite H1. cbn -[getitem place publish]. rewrite H2.
  cbn -[getitem place publish]. rewrite H3. cbn -[getitem place publish]. rewrite H4.
  cbn. rewrite H3. repeat split. apply lookup_insert_eq.
Qed.

(** X15. [download_start] records the controller's choice, points the
    download manager at the chosen representation, sets the index to its
    [startNumber] and publishes DownloadStart; a choice outside the manifest
    raises IndexError with the choice recorded and the download manager
    untouched. *)
Theorem download_start_contract (env : Env) (fuel : nat) (trig : Events -> M World unit)
    (w : World) (m : MPD) :
  abr_controller (pm w) = true -> mpd (pm w) = Some m ->
  let r := choose env (chosen w) in
  (forall (k : nat) (rep : Representation),
     place (representations w) r = Some k -> representations w !! k = Some rep ->
     exists w' : World,
       handle env fuel trig download_start w = publish trig DownloadStart w'
       /\ representation (dm w') = Some k
       /\ video_ind (dm w') = Some (startNumber rep)
       /\ current_video_representation_ind (pm w') = r
       /\ trace w' = trace w ++ [EvChoose r])
  /\ (place (representations w) r = None ->
      snd (handle env fuel trig download_start w) = Raised IndexError
      /\ dm (fst (handle env fuel trig download_start w)) = dm w
      /\ current_video_representation_ind
           (pm (fst (handle env fuel trig download_start w))) = r).
Proof.
  intros H1 H2 r. subst r. split.
  - intros k rep H3 H4.
    unfold handle, current_representation, abr_choose, point_at, emit.
    unfold bind, gets, modify, some_or, ret, raise.
    cbn -[getitem place publish]. rewrite H1. cbn -[getitem place publish]. rewrite H2.
    cbn -[getitem place publish]. rewrite H3. cbn -[getitem place publish]. rewrite H4.
    cbn -[getitem place publish].
    eexists. split; [reflexivity|]. cbn. repeat split; reflexivity.
  - intros H3.
    unfold handle, current_representation, abr_choose, point_at, emit.
    unfold bind, gets, modify, some_or, ret, raise.
    cbn -[getitem place publish]. rewrite H1. cbn -[getitem place publish]. rewrite H2.
    cbn -[getitem place publish]. rewrite H3. cbn. repeat split.
Qed.

(** X16. A player that has left READY never returns to it through the
    dispatch of an event, and from then on [check_canplay] does nothing: it
    returns with the state unchanged. *)
Theorem ready_is_never_reentered (fuel : nat) (env : Env) (event : Events) (w : World) :
  state (pm w) <> READY ->
  let w' := fst (publish (trigger fuel env) event w) in
  state (pm w') <> READY
  /\ forall (env' : Env) (fuel' : nat) (trig : Events -> M World unit),
       handle env' fuel' trig check_canplay w' = (w', Done tt).
Proof.
  intros H w'. subst w'.
  destruct (world_keeps_publish _ event (world_keeps_trigger fuel env) w)
    as (_ & _ & _ & _ & _ & _ & _ & _ & K & _).
  specialize (K H). split; [exact K|].
  intros env' fuel' trig. unfold handle, bind, gets, ready.
  rewrite bool_decide_eq_false_2 by exact K. reflexivity.
Qed.

(** ** The speed sampler *)

(** X17. Over turns of [feed_speed_monitor] that follow one another, the
    byte counts fed add up to the growth of [data_downloaded] between the
    first read and the last, and every sample is fed with a duration of 1
    second. *)
Theorem speed_samples_add_up (first : Z)
    (turns_seen : list (Emulator.Emulator * Emulator.Emulator)) :
  contiguous first turns_seen ->
  bytes_fed (Emulator.feed_speed_monitor turns_seen)
  = last_reading first turns_seen - first
  /\ Forall (fun sample => snd sample = 1%Q) (Emulator.feed_speed_monitor turns_seen).
Proof.
  revert first. induction turns_seen as [|seen later IH]; intros first; simpl.
  - intros _. split; [lia | constructor].
  - intros [H1 H2]. destruct (IH _ H2) as [IH1 IH2]. split.
    + fold (Emulator.feed_speed_monitor later). rewrite IH1, H1. lia.
    + constructor; [reflexivity | exact IH2].
Qed.

(** ** A whole session of the managers *)








Lemma primed_at_traced (env : Env) (k : nat) (rep : Representation) (ind : Z)
    (tr : list Ev) (w : World) :
  primed_at env k rep ind w -> primed_at env k rep ind (set_trace tr w).
Proof. intros H. exact H. Qed.






(** ** The further theorems at concrete sessions *)

Lemma small_response_reads_to_end : reads_to_end Scenario.small_response.
Proof. split; [discriminate | intros counter; reflexivity]. Qed.

(** X5 on the session on a single 2-second segment. *)
Lemma player_never_stopped_witness :
  reachable Scenario.short_session /\ state (pm Scenario.short_session) <> STOPPED.
Proof.
  assert (reachable Scenario.short_session) as R by apply reach_session.
  split; [exact R | exact (player_never_stopped Scenario.short_session R)].
Defined.

(** X16 on the session on ten segments, where playback has started: the
    dispatch of DownloadComplete leaves the player out of READY. *)
Lemma ready_is_never_reentered_witness :
  state (pm Scenario.long_session) <> READY
  /\ state (pm (fst (publish (trigger 5 Scenario.manager_env) DownloadComplete
                       Scenario.long_session))) <> READY.
Proof.
  assert (state (pm Scenario.long_session) <> READY) as H
    by (vm_compute; discriminate).
  split; [exact H|].
  exact (proj1 (ready_is_never_reentered 5 Scenario.manager_env DownloadComplete
                  Scenario.long_session H)).
Defined.




(** X9 with 500000 bytes at 1,000,000 bits/sec, a deadline of 4 seconds and
    an allowance of 6: at 4, 5 and 6 seconds the download is left alone. *)
Lemma monitor_spares_download_within_allowance_witness :
  download_untouched Scenario.downloading_numeric
    (fst (Emulator.download_progress_monitor Scenario.emulator_cfg
            Scenario.emulator_env [4%Q; 5%Q; 6%Q] Scenario.downloading_numeric)).
Proof.
  apply monitor_spares_download_within_allowance.
  intros v deadline Hv Hs.
  vm_compute in Hv. injection Hv as <-.
  vm_compute in Hs. injection Hs as <-.
  repeat constructor; vm_compute; discriminate.
Defined.

(** X10 on the emulator with the flag set, past the allowance. *)
Lemma monitor_never_clears_flag_witness :
  Emulator.set_to_lowest_quaity
    (fst (Emulator.download_progress_monitor Scenario.emulator_cfg
            Scenario.emulator_env [7%Q] Scenario.degraded)) = true.
Proof. apply monitor_never_clears_flag. reflexivity. Defined.

(** X11 on the emulator before any download: no task, a deadline of zero. *)
Lemma monitor_without_task_witness :
  Emulator.poll Scenario.emulator_cfg 0 1 (Emulator.init [Scenario.two_segments])
  = (Emulator.set_trace [EvSetLowest]
       (Emulator.set_lowest true (Emulator.init [Scenario.two_segments])),
     Raised AttributeError).
Proof.
  apply (monitor_without_task Scenario.emulator_cfg 0 1
           (Emulator.init [Scenario.two_segments])); reflexivity.
Defined.

(** X12 on ten segments: eleven tasks, the initialisation segment first,
    and ten durations fed. *)
Lemma start_fetches_every_segment_witness :
  snd (Emulator.start 11 Scenario.emulator_cfg Scenario.emulator_env
         (Emulator.init [Scenario.ten_segments])) = Done tt
  /\ created (Emulator.trace
                (fst (Emulator.start 11 Scenario.emulator_cfg Scenario.emulator_env
                        (Emulator.init [Scenario.ten_segments]))))
     = "init.mp4"%string :: urls Scenario.ten_segments
  /\ fed (Emulator.trace
            (fst (Emulator.start 11 Scenario.emulator_cfg Scenario.emulator_env
                    (Emulator.init [Scenario.ten_segments]))))
     = durations Scenario.ten_segments.
Proof.
  apply (start_fetches_every_segment 11 Scenario.emulator_cfg Scenario.emulator_env
           O Scenario.ten_segments (Emulator.init [Scenario.ten_segments])).
  - intros k. reflexivity.
  - intros k url. apply small_response_reads_to_end.
  - reflexivity.
  - vm_compute. discriminate.
  - vm_compute. discriminate.
  - vm_compute. lia.
Defined.

(** X13 on the single 2-second segment, at index 0: two seconds are fed
    and the index becomes 1. *)
Lemma download_next_contract_witness :
  exists w' : World,
    handle Scenario.manager_env 3 (trigger 3 Scenario.manager_env) download_next
      (Scenario.primed 0)
    = publish (trigger 3 Scenario.manager_env) DownloadStart w'
    /\ buffer w' = (buffer (Scenario.primed 0) + 2)%Q
    /\ video_ind (dm w') = Some 1
    /\ trace w' = trace (Scenario.primed 0) ++ [EvFeedSegment 2; EvChoose 0].
Proof.
  destruct (download_next_contract Scenario.manager_env 3
              (trigger 3 Scenario.manager_env) (Scenario.primed 0) O O
              (Scenario.one_segment 2) 0 2 (Scenario.four_second_threshold 2)
              eq_refl eq_refl eq_refl eq_refl eq_refl eq_refl eq_refl)
    as (w' & E & B & V & _ & _ & _ & T & _).
  exists w'. auto.
Defined.

(** X14 on the single 2-second segment, at index 1: IndexError, and the
    speed is recorded under index 1. *)
Lemma download_next_past_durations_witness :
  snd (handle Scenario.manager_env 3 (trigger 3 Scenario.manager_env) download_next
         (Scenario.primed 1)) = Raised IndexError
  /\ bandwidth_segmentwise
       (pm (fst (handle Scenario.manager_env 3 (trigger 3 Scenario.manager_env)
                   download_next (Scenario.primed 1)))) !! Some 1
     = Some (VInt 1000000).
Proof.
  destruct (download_next_past_durations Scenario.manager_env 3
              (trigger 3 Scenario.manager_env) (Scenario.primed 1) O
              (Scenario.one_segment 2) 1 eq_refl eq_refl eq_refl eq_refl)
    as (E & _ & _ & _ & D).
  split; [exact E | exact D].
Defined.

(** X15 on the single 2-second segment: the download manager is pointed at
    the representation at place 0 and at its first segment. *)
Lemma download_start_contract_witness :
  exists w' : World,
    handle Scenario.manager_env 3 (trigger 3 Scenario.manager_env) download_start
      (Scenario.primed 1)
    = publish (trigger 3 Scenario.manager_env) DownloadStart w'
    /\ representation (dm w') = Some O
    /\ video_ind (dm w') = Some 0.
Proof.
  destruct (download_start_contract Scenario.manager_env 3
              (trigger 3 Scenario.manager_env) (Scenario.primed 1)
              (Scenario.four_second_threshold 2) eq_refl eq_refl) as (A & _).
  destruct (A O (Scenario.one_segment 2) eq_refl eq_refl) as (w' & E & R & V & _).
  exists w'. auto.
Defined.

(** X17 on two turns that read 0 and 3, then 3 and 10: 10 bytes are fed. *)
Lemma speed_samples_add_up_witness :
  contiguous 0 Scenario.two_samples
  /\ bytes_fed (Emulator.feed_speed_monitor Scenario.two_samples) = 10.
Proof.
  assert (contiguous 0 Scenario.two_samples) as H by (simpl; auto).
  split; [exact H|].
  rewrite (proj1 (speed_samples_add_up 0 Scenario.two_samples H)). reflexivity.
Defined.

